(** * The FAQ answering engine of [backend/app/apis/faq]

    A shallow embedding of [src/backend/app/apis/faq/__init__.py]: the
    [VectorSearch] index, the storage helpers, the [update_faq] endpoint and
    the [search_faq] endpoint with its generative fallback.

    - Scores are binary64 floats, as in Python and numpy: [PrimFloat.float].
    - Text is [string]; the development reads it as ASCII text.
    - The endpoints run in a state-and-exception monad over a [World] that
      holds the JSON storage, the module-level [vector_search] object and the
      log of calls made to the chat-completion client. The storage holds
      decoded lists of [FAQItem]: JSON decoding and pydantic validation are
      the storage collaborator's.
    - Python lists are values here. [vector_search.faqs] aliases the list
      the endpoints hold, but every endpoint that mutates that list passes
      it to [add_faqs] again before the index is read.
    - scikit-learn is not part of the repository. The engine is stated over
      an interface, [Tfidf]; module [Sklearn] gives the instance that follows
      [TfidfVectorizer()] and [cosine_similarity] with their defaults. *)

From Stdlib Require Import Floats Uint63 ZArith Ascii String Lia.
From stdpp Require Import base list strings gmap.

#[local] Set Warnings "-inexact-float".

Local Open Scope string_scope.
Local Open Scope list_scope.

(** ** Exceptions and results *)

Inductive Exn : Type :=
| ValueError
| NotFittedError
| IndexError
| AttributeError
| APIError
| HTTPException (status_code : Z) (detail : string).

Definition result (A : Type) : Type := Exn + A.

Definition rbind {A B} (r : result A) (k : A -> result B) : result B :=
  match r with
  | inl e => inl e
  | inr a => k a
  end.

(** [l[i]] for a Python list or numpy array and a non-negative index. *)
Definition getitem {A} (l : list A) (i : nat) : result A :=
  match l !! i with
  | Some a => inr a
  | None => inl IndexError
  end.

(** ** Strings *)

Definition in_range (lo hi c : ascii) : bool :=
  (N_of_ascii lo <=? N_of_ascii c)%N && (N_of_ascii c <=? N_of_ascii hi)%N.

(** [str.lower] on one ASCII character. *)
Definition lower_ascii (c : ascii) : ascii :=
  if in_range "A" "Z" c then ascii_of_N (N_of_ascii c + 32) else c.

(** [s.lower()]. Characters above 127 are left as they are; in Python only
    U+0130 and U+212A lowercase into ASCII letters, an [i] followed by a
    combining dot and a [k], and neither can complete the phrase that
    [search_faq] looks for. *)
Fixpoint lower (s : string) : string :=
  match s with
  | EmptyString => EmptyString
  | String c rest => String (lower_ascii c) (lower rest)
  end.

(** [s.startswith(p)] *)
Fixpoint startswith (p s : string) : bool :=
  match p, s with
  | EmptyString, _ => true
  | String _ _, EmptyString => false
  | String a p', String b s' => if Ascii.eqb a b then startswith p' s' else false
  end.

(** [p in s] *)
Fixpoint contains (p s : string) : bool :=
  startswith p s ||
  match s with
  | EmptyString => false
  | String _ s' => contains p s'
  end.

(** [sep.join(parts)] *)
Fixpoint join (sep : string) (parts : list string) : string :=
  match parts with
  | [] => ""
  | [x] => x
  | x :: rest => x +:+ sep +:+ join sep rest
  end.

Definition newline : string := String "010" EmptyString.

(** The character class [[a-zA-Z0-9._-]]. *)
Definition storage_key_char (c : ascii) : bool :=
  in_range "a" "z" c || in_range "A" "Z" c || in_range "0" "9" c ||
  Ascii.eqb c "." || Ascii.eqb c "_" || Ascii.eqb c "-".

(** [re.sub(r'[^a-zA-Z0-9._-]', '', key)] *)
Fixpoint sanitize_storage_key (key : string) : string :=
  match key with
  | EmptyString => EmptyString
  | String c rest =>
      if storage_key_char c
      then String c (sanitize_storage_key rest)
      else sanitize_storage_key rest
  end.

(** ** Data models *)

Definition datetime : Type := Z.

Module FAQItem.
Record t : Type := Build
  { id : string;
    question : string;
    answer : string;
    created_at : datetime;
    updated_at : datetime;
    tags : list string }.
End FAQItem.

Module UpdateFAQRequest.
Record t : Type := Build
  { question : string;
    answer : string;
    tags : option (list string) }.
End UpdateFAQRequest.

Module QueryRequest.
Record t : Type := Build
  { question : string;
    confidence_threshold : float }.
End QueryRequest.

Module QueryResponse.
Record t : Type := Build
  { answer : option string;
    confidence : float;
    source_faq_id : option string;
    has_answer : bool }.

(** The field defaults of the pydantic model. *)
Definition default : t :=
  {| answer := None; confidence := 0%float;
     source_faq_id := None; has_answer := false |}.
End QueryResponse.

Record FAQResponse : Type := { faq : FAQItem.t }.

Record Message : Type := { role : string; content : string }.

(** ** numpy: comparison and [argmax] on float64 *)

(** [x >= y] on floats. *)
Definition geb (x y : float) : bool := (y <=? x)%float.

(** numpy is not part of the repository. [argmax] follows the scalar loop of
    numpy's [DOUBLE_argmax], which is also the rule of the specification
    (ties go to the lowest row index): [mp] is the running maximum,
    [max_ind] its index, [i] the index of the head of [ip]. An element
    replaces the maximum when [!(x <= mp)]; a NaN ends the scan. *)
Fixpoint argmax_loop (ip : list float) (i : nat) (mp : float) (max_ind : nat) : nat :=
  match ip with
  | [] => max_ind
  | x :: rest =>
      if negb (x <=? mp)%float
      then if is_nan x then i else argmax_loop rest (S i) x i
      else argmax_loop rest (S i) mp max_ind
  end.

(** [np.argmax]; an empty array raises [ValueError]. *)
Definition argmax (a : list float) : result nat :=
  match a with
  | [] => inl ValueError
  | x :: rest => inr (if is_nan x then 0 else argmax_loop rest 1 x 0)
  end.

(** ** The scikit-learn interface *)

(** What the engine uses of [TfidfVectorizer] and [cosine_similarity].
    [fit] is the fitting of a fresh vocabulary and idf vector on a corpus
    ([None]: the [ValueError] of an empty vocabulary); [transform] maps one
    document to its row; [cosine] is one entry of the similarity matrix.
    [fit_failed] is the fitted state a vectorizer is left with when a fit
    raises. *)
Class Tfidf : Type :=
  { Model : Type;
    Vec : Type;
    fit : list string -> option Model;
    transform : Model -> string -> Vec;
    cosine : Vec -> Vec -> float;
    fit_failed : option Model -> option Model }.

(** ** State and exceptions *)

Definition M (S A : Type) : Type := S -> result A * S.

Definition ret {S A} (a : A) : M S A := fun s => (inr a, s).
Definition raise {S A} (e : Exn) : M S A := fun s => (inl e, s).
Definition bind {S A B} (m : M S A) (k : A -> M S B) : M S B :=
  fun s => match m s with
           | (inl e, s') => (inl e, s')
           | (inr a, s') => k a s'
           end.
Definition lift {S A} (r : result A) : M S A := fun s => (r, s).
Definition modify {S} (f : S -> S) : M S unit := fun s => (inr tt, f s).
Definition gets {S A} (f : S -> A) : M S A := fun s => (inr (f s), s).

(** [try: m except Exception as e: h e] *)
Definition try_except {S A} (m : M S A) (h : Exn -> M S A) : M S A :=
  fun s => match m s with
           | (inl e, s') => h e s'
           | (inr a, s') => (inr a, s')
           end.

Declare Scope py_scope.
Delimit Scope py_scope with py.
Notation "x <- m ;; k" := (bind m (fun x => k))
  (at level 100, m at next level, right associativity) : py_scope.
Notation "m ;;; k" := (bind m (fun _ => k))
  (at level 100, right associativity) : py_scope.
Notation "x <~ r ;; k" := (rbind r (fun x => k))
  (at level 100, r at next level, right associativity) : py_scope.
Local Open Scope py_scope.

Section Engine.
Context {sk : Tfidf}.

(** ** VectorSearch *)

Record VectorSearch : Type := mkVectorSearch
  { vectorizer : option Model;
    faqs : list FAQItem.t;
    vectors : option (list Vec);
    initialized : bool }.

(** [VectorSearch.__init__] *)
Definition VectorSearch_init : VectorSearch :=
  {| vectorizer := None; faqs := []; vectors := None; initialized := false |}.

(** [f"{faq.question} {faq.answer}"] *)
Definition document (faq : FAQItem.t) : string :=
  FAQItem.question faq +:+ " " +:+ FAQItem.answer faq.

(** [self.vectorizer.fit_transform(corpus)] *)
Definition fit_transform (v : option Model) (corpus : list string)
  : result (list Vec) * option Model :=
  match fit corpus with
  | Some m => (inr (fmap (transform m) corpus), Some m)
  | None => (inl ValueError, fit_failed v)
  end.

(** [self.vectorizer.transform([query])] *)
Definition vectorizer_transform (v : option Model) (query : string) : result Vec :=
  match v with
  | Some m => inr (transform m query)
  | None => inl NotFittedError
  end.

(** [cosine_similarity(query_vec, Y).flatten()]; with [Y=None] scikit-learn
    compares the query with itself. *)
Definition cosine_similarity (query_vec : Vec) (Y : option (list Vec)) : list float :=
  match Y with
  | Some rows => fmap (cosine query_vec) rows
  | None => [cosine query_vec query_vec]
  end.

Definition add_faqs (new_faqs : list FAQItem.t) : M VectorSearch unit :=
  fun self =>
    match new_faqs with
    | _ :: _ =>
        let corpus := fmap document new_faqs in
        match fit_transform (vectorizer self) corpus with
        | (inr rows, v) =>
            (inr tt, {| vectorizer := v; faqs := new_faqs;
                        vectors := Some rows; initialized := true |})
        | (inl e, v) =>
            (inl e, {| vectorizer := v; faqs := new_faqs;
                       vectors := vectors self; initialized := initialized self |})
        end
    | [] =>
        (inr tt, {| vectorizer := vectorizer self; faqs := [];
                    vectors := None; initialized := false |})
    end.

(** The array [similarities] of [search]. *)
Definition similarities (self : VectorSearch) (query : string) : result (list float) :=
  query_vec <~ vectorizer_transform (vectorizer self) query ;;
  inr (cosine_similarity query_vec (vectors self)).

Definition search (self : VectorSearch) (query : string) (threshold : float)
  : result (option FAQItem.t * float) :=
  if negb (initialized self) || bool_decide (faqs self = [])
  then inr (None, 0%float)
  else
    sims <~ similarities self query ;;
    best_idx <~ argmax sims ;;
    best_similarity <~ getitem sims best_idx ;;
    if geb best_similarity threshold
    then best <~ getitem (faqs self) best_idx ;;
         inr (Some best, best_similarity)
    else inr (None, best_similarity).

(** The default [threshold=0.5] of [search]. *)
Definition search_default_threshold : float := 0.5%float.

(** ** The module-level state *)

(** The chat-completion client: given the model name and the messages it
    raises or returns the [content] of each choice ([None] for a null
    content). *)
Definition ChatCompletions : Type :=
  string -> list Message -> result (list (option string)).

(** [openai_client], bound once when the module is loaded; [None] when the
    client could not be built. *)
Variable openai_client : option ChatCompletions.

Record World : Type := mkWorld
  { storage : gmap string (list FAQItem.t);
    vector_search : VectorSearch;
    openai_calls : list (string * list Message) }.

(** Run a method of the [vector_search] object. *)
Definition on_vector_search {A} (m : M VectorSearch A) : M World A :=
  fun w =>
    let (r, vs) := m (vector_search w) in
    (r, {| storage := storage w; vector_search := vs;
           openai_calls := openai_calls w |}).

(** [db.storage.json.get(key, default=d)] *)
Definition storage_get (key : string) (d : list FAQItem.t) : M World (list FAQItem.t) :=
  gets (fun w => default d (storage w !! key)).

(** [db.storage.json.put(key, value)] *)
Definition storage_put (key : string) (value : list FAQItem.t) : M World unit :=
  modify (fun w => {| storage := <[key := value]> (storage w);
                      vector_search := vector_search w;
                      openai_calls := openai_calls w |}).

(** ** Storage helpers *)

Definition get_faqs : M World (list FAQItem.t) :=
  try_except
    (faqs_data <- storage_get "faqs" [] ;;
     on_vector_search (add_faqs faqs_data) ;;;
     ret faqs_data)
    (fun _ => ret []).

Definition save_faqs (new_faqs : list FAQItem.t) : M World unit :=
  storage_put (sanitize_storage_key "faqs") new_faqs ;;;
  on_vector_search (add_faqs new_faqs).

(** ** [update_faq] *)

(** [next((i for i, f in enumerate(faqs) if f.id == faq_id), None)] *)
Fixpoint find_index (faq_id : string) (l : list FAQItem.t) : option nat :=
  match l with
  | [] => None
  | f :: rest =>
      if String.eqb (FAQItem.id f) faq_id then Some 0
      else S <$> find_index faq_id rest
  end.

(** [a or b] on lists, the first one optional. *)
Definition tags_or (a : option (list string)) (b : list string) : list string :=
  match a with
  | Some (t :: l) => t :: l
  | _ => b
  end.

(** [now] is the reading of [datetime.datetime.now()]. *)
Definition update_faq (now : datetime) (faq_id : string) (request : UpdateFAQRequest.t)
  : M World FAQResponse :=
  all_faqs <- get_faqs ;;
  match find_index faq_id all_faqs with
  | None => raise (HTTPException 404 "FAQ not found")
  | Some faq_index =>
      old <- lift (getitem all_faqs faq_index) ;;
      let updated_faq :=
        {| FAQItem.id := faq_id;
           FAQItem.question := UpdateFAQRequest.question request;
           FAQItem.answer := UpdateFAQRequest.answer request;
           FAQItem.tags := tags_or (UpdateFAQRequest.tags request) (FAQItem.tags old);
           FAQItem.created_at := FAQItem.created_at old;
           FAQItem.updated_at := now |} in
      save_faqs (<[faq_index := updated_faq]> all_faqs) ;;;
      ret {| faq := updated_faq |}
  end.

(** ** [search_faq] *)

Definition sentinel : string := "don't have enough information".

Definition system_prompt : string :=
  "You are a helpful assistant that answers questions based on the following FAQ information. If you don't find a match, reply with 'I don't have enough information to answer this question.' Here are the FAQs:"
  +:+ newline +:+ newline.

Definition faq_context (all_faqs : list FAQItem.t) : string :=
  join (newline +:+ newline)
    (fmap (fun f => "Question: " +:+ FAQItem.question f +:+ newline
                   +:+ "Answer: " +:+ FAQItem.answer f) all_faqs).

Definition fallback_messages (all_faqs : list FAQItem.t) (user_question : string)
  : list Message :=
  [ {| role := "system"; content := system_prompt +:+ faq_context all_faqs |};
    {| role := "user"; content := user_question |} ].

(** [client.chat.completions.create(model=..., messages=...)]: the call is
    logged, then it returns or raises. *)
Definition chat_completions_create (client : ChatCompletions)
    (model : string) (messages : list Message) : M World (list (option string)) :=
  modify (fun w => {| storage := storage w; vector_search := vector_search w;
                      openai_calls := openai_calls w ++ [(model, messages)] |}) ;;;
  lift (client model messages).

(** The body of the [try] block: [Some response] when it returns. *)
Definition fallback_try (client : ChatCompletions) (all_faqs : list FAQItem.t)
    (user_question : string) : M World (option QueryResponse.t) :=
  choices <- chat_completions_create client "gpt-4o-mini"
               (fallback_messages all_faqs user_question) ;;
  choice <- lift (getitem choices 0) ;;
  (* [ai_answer.lower()] on a null content raises *)
  ai_answer <- lift (match choice with
                     | Some text => inr text
                     | None => inl AttributeError
                     end) ;;
  if contains sentinel (lower ai_answer)
  then ret (Some {| QueryResponse.answer := None;
                    QueryResponse.confidence := 0.4%float;
                    QueryResponse.source_faq_id := None;
                    QueryResponse.has_answer := false |})
  else ret (Some {| QueryResponse.answer := Some ai_answer;
                    QueryResponse.confidence := 0.7%float;
                    QueryResponse.source_faq_id := None;
                    QueryResponse.has_answer := true |}).

(** The fallback path of [search_faq], from [if openai_client:] on. *)
Definition fallback (all_faqs : list FAQItem.t) (user_question : string)
    (confidence : float) : M World QueryResponse.t :=
  returned <- match openai_client with
              | Some client =>
                  try_except (fallback_try client all_faqs user_question)
                             (fun _ => ret None)
              | None => ret None
              end ;;
  match returned with
  | Some response => ret response
  | None =>
      ret {| QueryResponse.answer := None;
             QueryResponse.confidence := confidence;
             QueryResponse.source_faq_id := None;
             QueryResponse.has_answer := false |}
  end.

Definition search_faq (request : QueryRequest.t) : M World QueryResponse.t :=
  all_faqs <- get_faqs ;;
  match all_faqs with
  | [] => ret QueryResponse.default
  | _ :: _ =>
      found <- on_vector_search
                 (fun self => (search self (QueryRequest.question request)
                                 (QueryRequest.confidence_threshold request), self)) ;;
      match found with
      | (Some best_match, confidence) =>
          ret {| QueryResponse.answer := Some (FAQItem.answer best_match);
                 QueryResponse.confidence := confidence;
                 QueryResponse.source_faq_id := Some (FAQItem.id best_match);
                 QueryResponse.has_answer := true |}
      | (None, confidence) =>
          fallback all_faqs (QueryRequest.question request) confidence
      end
  end.

End Engine.

(** ** The other endpoints *)

Module CreateFAQRequest.
Record t : Type := Build
  { question : string;
    answer : string;
    tags : option (list string) }.
End CreateFAQRequest.

Module FAQListResponse.
Record t : Type := Build { faqs : list FAQItem.t }.
End FAQListResponse.

(** The dictionary [{"message": ...}] that [delete_faq] returns. *)
Record DeleteResponse : Type := { message : string }.

Section Endpoints.
Context {sk : Tfidf}.

Definition get_all_faqs : M World FAQListResponse.t :=
  all_faqs <- get_faqs ;;
  ret {| FAQListResponse.faqs := all_faqs |}.

(** [new_id] is [str(uuid.uuid4())]; [now_created] and [now_updated] are
    the two readings of [datetime.datetime.now()], in that order. *)
Definition create_faq (new_id : string) (now_created now_updated : datetime)
    (request : CreateFAQRequest.t) : M World FAQResponse :=
  all_faqs <- get_faqs ;;
  let new_faq :=
    {| FAQItem.id := new_id;
       FAQItem.question := CreateFAQRequest.question request;
       FAQItem.answer := CreateFAQRequest.answer request;
       FAQItem.tags := tags_or (CreateFAQRequest.tags request) [];
       FAQItem.created_at := now_created;
       FAQItem.updated_at := now_updated |} in
  save_faqs (all_faqs ++ [new_faq]) ;;;
  ret {| faq := new_faq |}.

(** [next((f for f in faqs if f.id == faq_id), None)] *)
Fixpoint find_faq (faq_id : string) (l : list FAQItem.t) : option FAQItem.t :=
  match l with
  | [] => None
  | f :: rest =>
      if String.eqb (FAQItem.id f) faq_id then Some f else find_faq faq_id rest
  end.

Definition get_faq (faq_id : string) : M World FAQResponse :=
  all_faqs <- get_faqs ;;
  match find_faq faq_id all_faqs with
  | None => raise (HTTPException 404 "FAQ not found")
  | Some f => ret {| faq := f |}
  end.

Definition delete_faq (faq_id : string) : M World DeleteResponse :=
  all_faqs <- get_faqs ;;
  match find_index faq_id all_faqs with
  | None => raise (HTTPException 404 "FAQ not found")
  | Some faq_index =>
      (* [faqs.pop(faq_index)] *)
      lift (getitem all_faqs faq_index) ;;;
      save_faqs (delete faq_index all_faqs) ;;;
      ret {| message := "FAQ deleted successfully" |}
  end.

(** What the storage holds under the key of the FAQs. *)
Definition stored_faqs (w : World) : list FAQItem.t :=
  default [] (storage w !! "faqs").

(** The rebuild of [add_faqs] returns on [kb]. *)
Definition indexes (kb : list FAQItem.t) : bool :=
  match kb with
  | [] => true
  | _ :: _ => bool_decide (is_Some (fit (document <$> kb)))
  end.

(** The identifiers of a knowledge base, in order. *)
Definition ids (kb : list FAQItem.t) : list string := FAQItem.id <$> kb.

(** What [get_faqs] hands to the endpoints: the stored list, or the empty
    list when the rebuild raises on it. *)
Definition visible_faqs (w : World) : list FAQItem.t :=
  if indexes (stored_faqs w) then stored_faqs w else [].

End Endpoints.

(** Every character of [s] passes [p]. *)
Fixpoint string_forall (p : ascii -> bool) (s : string) : bool :=
  match s with
  | EmptyString => true
  | String c rest => p c && string_forall p rest
  end.

(** ** scikit-learn's [TfidfVectorizer()] and [cosine_similarity] *)

(** The instance of [Tfidf] used for concrete knowledge bases. It follows
    scikit-learn with the defaults the source leaves in place: lowercased
    text, tokens matching [(?u)\b\w\w+\b], a vocabulary in sorted order,
    smoothed idf [log((1 + n) / (1 + df)) + 1], rows in l2 norm, and a
    cosine that normalises both rows again before the sparse product. Rows
    are sparse: [(column, value)] pairs in increasing column order. That is
    the order of the rows scikit-learn transforms; the rows it fits are
    stored in the order in which the terms first appear, so the norm of a
    fitted row can differ from the one here in its last bits. Text is read
    as ASCII: a letter above 127 ends a token here and does not there.

    numpy's [log] is libm's and is not among the kernel's float operations:
    the instance takes it as the argument [np_log]. *)
Module Sklearn.

(** [\w] on ASCII text. *)
Definition word_char (c : ascii) : bool :=
  in_range "a" "z" c || in_range "A" "Z" c || in_range "0" "9" c || Ascii.eqb c "_".

(** A finished run of word characters is a token when it has two or more. *)
Definition flush (run : list ascii) (acc : list string) : list string :=
  if (2 <=? length run)%nat then string_of_list_ascii (rev run) :: acc else acc.

(** [re.findall(r"(?u)\b\w\w+\b", s)]; [run] is the current run, reversed. *)
Fixpoint scan (s : string) (run : list ascii) : list string :=
  match s with
  | EmptyString => flush run []
  | String c rest =>
      if word_char c then scan rest (c :: run) else flush run (scan rest [])
  end.

Definition tokenize (doc : string) : list string := scan (lower doc) [].

Fixpoint insert_term (t : string) (vocab : list string) : list string :=
  match vocab with
  | [] => [t]
  | u :: rest =>
      match String.compare t u with
      | Lt => t :: vocab
      | Eq => vocab
      | Gt => u :: insert_term t rest
      end
  end.

(** The distinct terms of the corpus, sorted. *)
Definition build_vocabulary (docs : list (list string)) : list string :=
  foldl (fun vocab t => insert_term t vocab) [] (concat docs).

Definition term_count (t : string) (toks : list string) : nat :=
  length (filter (fun u => u = t) toks).

(** One row of the count matrix: the columns of the terms that occur. *)
Definition count_row (vocab : list string) (toks : list string) : list (nat * nat) :=
  omap (fun '(j, t) => let c := term_count t toks in
                       if (0 <? c)%nat then Some (j, c) else None)
       (imap (fun j t => (j, t)) vocab).

Definition float_of_nat (n : nat) : float := PrimFloat.of_uint63 (Uint63.of_Z (Z.of_nat n)).

Record TfidfModel : Type :=
  { vocabulary_ : list string;
    idf_ : list float }.

Definition document_frequency (t : string) (docs : list (list string)) : nat :=
  length (filter (fun toks => (0 < term_count t toks)%nat) docs).

(** [inplace_csr_row_normalize_l2] on one row. *)
Definition normalize (row : list (nat * float)) : list (nat * float) :=
  let sum := foldl (fun acc '(_, x) => acc + x * x)%float 0%float row in
  if (sum =? 0)%float then row
  else let norm := PrimFloat.sqrt sum in
       fmap (fun '(j, x) => (j, x / norm)%float) row.

Definition column (j : nat) (row : list (nat * float)) : option float :=
  snd <$> head (filter (fun '(k, _) => k = j) row).

(** One entry of the sparse product [X @ Y.T]. *)
Definition sparse_dot (a b : list (nat * float)) : float :=
  foldl (fun acc '(k, x) => match column k b with
                            | Some y => acc + x * y
                            | None => acc
                            end)%float 0%float a.

Section WithLog.
Variable np_log : float -> float.

Definition fit (corpus : list string) : option TfidfModel :=
  let docs := fmap tokenize corpus in
  let vocab := build_vocabulary docs in
  match vocab with
  | [] => None
  | _ :: _ =>
      let n_samples := float_of_nat (length corpus + 1) in
      Some {| vocabulary_ := vocab;
              idf_ := fmap (fun t =>
                             let df := (float_of_nat (document_frequency t docs) + 1)%float in
                             (np_log (n_samples / df) + 1)%float) vocab |}
  end.
End WithLog.

Definition transform (m : TfidfModel) (doc : string) : list (nat * float) :=
  normalize
    (omap (fun '(j, c) => (fun w => (j, float_of_nat c * w)%float) <$> idf_ m !! j)
          (count_row (vocabulary_ m) (tokenize doc))).

Definition cosine (x y : list (nat * float)) : float :=
  sparse_dot (normalize x) (normalize y).

(** scikit-learn 1.x installs a fresh, unfitted [TfidfTransformer] before
    it counts, so a fit that raises leaves the vectorizer unfitted. *)
Definition tfidf (np_log : float -> float) : Tfidf :=
  Build_Tfidf TfidfModel (list (nat * float)) (fit np_log) transform cosine (fun _ => None).

(** The logarithm at its only argument when every term of the corpus
    occurs in every document, [(1 + n) / (1 + n) = 1.0]. *)
Definition log_unit (x : float) : float :=
  if (x =? 1)%float then 0%float else nan.

End Sklearn.

(** ** Vocabulary of the statements *)

Section Vocabulary.
Context {sk : Tfidf}.

(** The index a rebuild leaves when fitting the documents of [kb] gives [m]. *)
Definition rebuilt (kb : list FAQItem.t) (m : Model) : VectorSearch :=
  {| vectorizer := Some m; faqs := kb;
     vectors := Some (fmap (transform m) (fmap document kb));
     initialized := true |}.

(** The similarity of a query to the indexed document of an entry. *)
Definition score (m : Model) (query : string) (e : FAQItem.t) : float :=
  cosine (transform m query) (transform m (document e)).

(** [best_idx] and [best_similarity] of [search], before the threshold. *)
Definition best_match (self : VectorSearch) (query : string) : result (nat * float) :=
  sims <~ similarities self query ;;
  best_idx <~ argmax sims ;;
  best_similarity <~ getitem sims best_idx ;;
  inr (best_idx, best_similarity).

Definition with_vector_search (w : World) (vs : VectorSearch) : World :=
  {| storage := storage w; vector_search := vs; openai_calls := openai_calls w |}.

(** The stored knowledge base is [kb], it is not empty, and fitting its
    documents gives [m]. *)
Definition Indexed (w : World) (kb : list FAQItem.t) (m : Model) : Prop :=
  default [] (storage w !! "faqs") = kb /\ kb <> [] /\ fit (fmap document kb) = Some m.

(** The fallback call raises: the client does, or there is no first choice,
    or its content is null. *)
Definition fallback_raises (client : ChatCompletions)
    (kb : list FAQItem.t) (user_question : string) : Prop :=
  match client "gpt-4o-mini" (fallback_messages kb user_question) with
  | inr (Some _ :: _) => False
  | _ => True
  end.

(** The fallback call returns [text]. *)
Definition fallback_returns (client : ChatCompletions)
    (kb : list FAQItem.t) (user_question : string) (text : string) : Prop :=
  exists others,
    client "gpt-4o-mini" (fallback_messages kb user_question) = inr (Some text :: others).

End Vocabulary.

(** [text] holds the sentinel phrase in some letter case. *)
Definition mentions_sentinel (text : string) : Prop :=
  exists before phrase after,
    text = before +:+ phrase +:+ after /\ lower phrase = sentinel.

(** ** Knowledge bases and clients of the examples *)

(** scikit-learn over [Sklearn.log_unit]: enough for the knowledge bases
    below, whose terms occur in every document. *)
Definition sklearn_unit : Tfidf := Sklearn.tfidf Sklearn.log_unit.

Definition faq_password : FAQItem.t :=
  {| FAQItem.id := "faq-1";
     FAQItem.question := "How do I reset my password?";
     FAQItem.answer := "Click 'Forgot password' on the login page.";
     FAQItem.created_at := 1700000000%Z;
     FAQItem.updated_at := 1700000600%Z;
     FAQItem.tags := ["account"] |}.

Definition faq_hello : FAQItem.t :=
  {| FAQItem.id := "faq-2";
     FAQItem.question := "hello";
     FAQItem.answer := "world world world world";
     FAQItem.created_at := 1700000000%Z;
     FAQItem.updated_at := 1700000000%Z;
     FAQItem.tags := [] |}.

(** An entry whose answer adds no term to its question. *)
Definition faq_bare : FAQItem.t :=
  {| FAQItem.id := "faq-3";
     FAQItem.question := "password";
     FAQItem.answer := "?";
     FAQItem.created_at := 1700000000%Z;
     FAQItem.updated_at := 1700000000%Z;
     FAQItem.tags := [] |}.

(** [faq_password] stored a second time under another identifier. *)
Definition faq_password_again : FAQItem.t :=
  {| FAQItem.id := "faq-4";
     FAQItem.question := FAQItem.question faq_password;
     FAQItem.answer := FAQItem.answer faq_password;
     FAQItem.created_at := 1700001000%Z;
     FAQItem.updated_at := 1700001000%Z;
     FAQItem.tags := [] |}.

(** A world that stores [kb] and has answered nothing yet. *)
Definition world_of (kb : list FAQItem.t) : World (sk := sklearn_unit) :=
  {| storage := {[ "faqs" := kb ]};
     vector_search := VectorSearch_init;
     openai_calls := [] |}.

Definition empty_world : World (sk := sklearn_unit) :=
  {| storage := ∅; vector_search := VectorSearch_init; openai_calls := [] |}.

(** What fitting [kb] gives under [sklearn_unit]. *)
Definition model_of (kb : list FAQItem.t) : Model (Tfidf := sklearn_unit) :=
  default {| Sklearn.vocabulary_ := []; Sklearn.idf_ := [] |}
          (Sklearn.fit Sklearn.log_unit (document <$> kb)).

Definition client_down : ChatCompletions := fun _ _ => inl APIError.

Definition client_declines : ChatCompletions :=
  fun _ _ => inr [Some "I DON'T HAVE ENOUGH INFORMATION to answer this question."].

Definition client_answers : ChatCompletions :=
  fun _ _ => inr [Some "Use the link on the login page."].

Definition password_update : UpdateFAQRequest.t :=
  {| UpdateFAQRequest.question := "How can I change my password?";
     UpdateFAQRequest.answer := "Open Settings and choose 'Change password'.";
     UpdateFAQRequest.tags := Some [] |}.

(** An entry without a token of two characters. *)
Definition faq_marks : FAQItem.t :=
  {| FAQItem.id := "faq-5";
     FAQItem.question := "?";
     FAQItem.answer := "!";
     FAQItem.created_at := 1700002000%Z;
     FAQItem.updated_at := 1700002000%Z;
     FAQItem.tags := [] |}.

Definition password_create : CreateFAQRequest.t :=
  {| CreateFAQRequest.question := "How do I reset my password?";
     CreateFAQRequest.answer := "Click 'Forgot password' on the login page.";
     CreateFAQRequest.tags := None |}.

Definition weather_request : QueryRequest.t :=
  {| QueryRequest.question := "What's the weather today?";
     QueryRequest.confidence_threshold := 0.5 |}.

(** ** Binary64 order *)

(** The order of two finite floats of one sign: exponent, then mantissa. *)
Definition lex (e1 : Z) (m1 : positive) (e2 : Z) (m2 : positive) : comparison :=
  match Z.compare e1 e2 with
  | Lt => Lt
  | Gt => Gt
  | Eq => Pos.compare m1 m2
  end.

Lemma lex_spec e1 m1 e2 m2 :
  CompareSpec (e1 = e2 /\ m1 = m2)
              (e1 < e2 \/ (e1 = e2 /\ (m1 < m2)%positive))%Z
              (e2 < e1 \/ (e1 = e2 /\ (m2 < m1)%positive))%Z
              (lex e1 m1 e2 m2).
Proof.
  unfold lex.
  destruct (Z.compare_spec e1 e2); [|constructor; lia|constructor; lia].
  destruct (Pos.compare_spec m1 m2); constructor; lia.
Qed.

Lemma SFcompare_finite s1 m1 e1 s2 m2 e2 :
  SFcompare (S754_finite s1 m1 e1) (S754_finite s2 m2 e2) =
  Some match s1, s2 with
       | true, false => Lt
       | false, true => Gt
       | false, false => lex e1 m1 e2 m2
       | true, true => lex e2 m2 e1 m1
       end.
Proof.
  destruct s1, s2; simpl; try reflexivity; f_equal; unfold lex;
    fold (Pos.compare m1 m2);
    rewrite ?(Z.compare_antisym e1 e2), ?(Pos.compare_antisym m1 m2);
    destruct (e1 ?= e2)%Z; simpl; try reflexivity.
Qed.

Ltac sf_cases :=
  repeat match goal with
         | x : spec_float |- _ => destruct x
         | b : bool |- _ => destruct b
         end;
  rewrite ?SFcompare_finite in *;
  cbn [SFcompare] in *.

Ltac lex_cases :=
  repeat match goal with
         | H : context [lex ?a ?b ?c ?d] |- _ => destruct (lex_spec a b c d)
         | |- context [lex ?a ?b ?c ?d] => destruct (lex_spec a b c d)
         end.

Ltac sf_order :=
  unfold SFeqb, SFltb, SFleb; intros;
  sf_cases; try discriminate; try reflexivity;
  lex_cases; try discriminate; try reflexivity; lia.

Lemma SFleb_refl x : SFeqb x x = true -> SFleb x x = true.
Proof. unfold SFeqb, SFleb. destruct (SFcompare x x) as [[]|]; congruence. Qed.

Lemma SFeqb_SFleb x y : SFeqb x y = true -> SFleb y x = true.
Proof. sf_order. Qed.

Lemma SFltb_SFleb x y : SFltb x y = true -> SFleb y x = false.
Proof. sf_order. Qed.

Lemma SFleb_not_nan x y : SFleb x y = true -> SFeqb x x = true /\ SFeqb y y = true.
Proof. revert x y. sf_order. Qed.

Lemma SFleb_trans a b c : SFleb a b = true -> SFleb b c = true -> SFleb a c = true.
Proof. sf_order. Qed.

Lemma SFleb_antisym a b : SFleb a b = true -> SFleb b a = true -> SFeqb a b = true.
Proof. sf_order. Qed.

Lemma SFleb_raise a b c :
  SFleb a b = true -> SFleb c b = false -> SFeqb c c = true -> SFleb a c = true.
Proof. sf_order. Qed.

Lemma is_nan_false x : is_nan x = false <-> SFeqb (Prim2SF x) (Prim2SF x) = true.
Proof.
  unfold is_nan. rewrite FloatAxioms.eqb_spec.
  destruct (SFeqb _ _); simpl; split; congruence.
Qed.

(** [==] implies [>=]. *)
Lemma float_eqb_geb x y : (x =? y)%float = true -> geb x y = true.
Proof.
  unfold geb. rewrite FloatAxioms.eqb_spec, FloatAxioms.leb_spec. apply SFeqb_SFleb.
Qed.

(** [<] excludes [>=]. *)
Lemma float_ltb_geb x y : (x <? y)%float = true -> geb x y = false.
Proof.
  unfold geb. rewrite FloatAxioms.ltb_spec, FloatAxioms.leb_spec. apply SFltb_SFleb.
Qed.

Lemma float_leb_refl x : is_nan x = false -> (x <=? x)%float = true.
Proof.
  rewrite is_nan_false, FloatAxioms.leb_spec. apply SFleb_refl.
Qed.

Lemma float_leb_not_nan x y : (x <=? y)%float = true -> is_nan x = false /\ is_nan y = false.
Proof.
  rewrite !is_nan_false, FloatAxioms.leb_spec. apply SFleb_not_nan.
Qed.

Lemma float_leb_trans a b c :
  (a <=? b)%float = true -> (b <=? c)%float = true -> (a <=? c)%float = true.
Proof. rewrite !FloatAxioms.leb_spec. apply SFleb_trans. Qed.

Lemma float_leb_antisym a b :
  (a <=? b)%float = true -> (b <=? a)%float = true -> (a =? b)%float = true.
Proof. rewrite !FloatAxioms.leb_spec, FloatAxioms.eqb_spec. apply SFleb_antisym. Qed.

Lemma float_leb_raise a b c :
  (a <=? b)%float = true -> (c <=? b)%float = false -> is_nan c = false ->
  (a <=? c)%float = true.
Proof.
  rewrite is_nan_false, !FloatAxioms.leb_spec. apply SFleb_raise.
Qed.

(** ** [argmax] *)

(** What [argmax] promises of the row [k] it selects in [a]: every earlier
    element is a number that the selected one is not below or equal to, and
    when the selected one is a number, no element exceeds it. *)
Lemma argmax_loop_spec (ip : list float) :
  forall (pre : list float) (mp : float) (max_ind : nat),
    pre !! max_ind = Some mp ->
    is_nan mp = false ->
    (forall p x, pre !! p = Some x -> (x <=? mp)%float = true) ->
    (forall p x, p < max_ind -> pre !! p = Some x -> (mp <=? x)%float = false) ->
    exists y,
      (pre ++ ip) !! argmax_loop ip (length pre) mp max_ind = Some y /\
      (forall p x, p < argmax_loop ip (length pre) mp max_ind ->
                   (pre ++ ip) !! p = Some x ->
                   is_nan x = false /\ (y <=? x)%float = false) /\
      (is_nan y = false ->
       forall q z, (pre ++ ip) !! q = Some z -> (z <=? y)%float = true).
Proof.
  induction ip as [|x rest IH]; intros pre mp max_ind Hmp Hnan Hle Hlt.
  - rewrite app_nil_r. simpl. exists mp. split; [done|]. split.
    + intros p z Hp Hz. split; [|by eapply Hlt].
      by destruct (float_leb_not_nan _ _ (Hle _ _ Hz)).
    + intros _ q z Hz. by eapply Hle.
  - assert (Hsnoc : (pre ++ x :: rest) = (pre ++ [x]) ++ rest) by by rewrite <- app_assoc.
    assert (Hlen : length (pre ++ [x]) = S (length pre)) by (rewrite length_app; simpl; lia).
    simpl. destruct (x <=? mp)%float eqn:Hx; simpl.
    + rewrite Hsnoc, <- Hlen. apply IH.
      * by apply lookup_app_l_Some.
      * done.
      * intros p z Hz. apply lookup_snoc_Some in Hz as [[_ Hz]|[_ <-]]; [by eapply Hle|done].
      * intros p z Hp Hz. apply lookup_snoc_Some in Hz as [[_ Hz]|[Hp' _]].
        -- by eapply Hlt.
        -- apply lookup_lt_Some in Hmp. lia.
    + destruct (is_nan x) eqn:Hxn.
      * exists x. split; [by rewrite list_lookup_middle|]. split.
        -- intros p z Hp Hz. rewrite lookup_app_l in Hz by done.
           destruct (float_leb_not_nan _ _ (Hle _ _ Hz)) as [Hz' _]. split; [done|].
           destruct (x <=? z)%float eqn:Hxz; [|done].
           apply float_leb_not_nan in Hxz as [Hxz _]. congruence.
        -- congruence.
      * rewrite Hsnoc, <- Hlen. apply IH.
        -- by apply list_lookup_middle.
        -- done.
        -- intros p z Hz. apply lookup_snoc_Some in Hz as [[_ Hz]|[_ <-]].
           ++ eapply float_leb_raise; [by eapply Hle|done..].
           ++ by apply float_leb_refl.
        -- intros p z Hp Hz. rewrite lookup_app_l in Hz by lia.
           destruct (x <=? z)%float eqn:Hxz; [|done].
           rewrite (float_leb_trans _ _ _ Hxz (Hle _ _ Hz)) in Hx. done.
Qed.

Lemma argmax_spec (a : list float) (k : nat) :
  argmax a = inr k ->
  exists y,
    a !! k = Some y /\
    (forall p x, p < k -> a !! p = Some x -> is_nan x = false /\ (y <=? x)%float = false) /\
    (is_nan y = false -> forall q z, a !! q = Some z -> (z <=? y)%float = true).
Proof.
  destruct a as [|x rest]; [done|]. simpl. intros [= <-].
  destruct (is_nan x) eqn:Hx.
  - exists x. split; [done|]. split; [lia|congruence].
  - apply (argmax_loop_spec rest [x] x 0); [done..| |lia].
    intros [|p] z; simpl; [|done]. intros [= <-]. by apply float_leb_refl.
Qed.

Lemma argmax_total (a : list float) : a <> [] -> exists k, argmax a = inr k.
Proof. destruct a; [done|]. simpl. eauto. Qed.

(** Of two equal elements [argmax] never selects the later one. *)
Lemma argmax_tie (a : list float) (i j : nat) (v : float) :
  i < j -> a !! i = Some v -> a !! j = Some v -> argmax a <> inr j.
Proof.
  intros Hij Hi Hj Hk. apply argmax_spec in Hk as (y & Hy & Hbefore & _).
  assert (y = v) as -> by congruence.
  destruct (Hbefore i v Hij Hi) as [Hn Hlt].
  by rewrite float_leb_refl in Hlt.
Qed.

(** [argmax] selects row [i] when every earlier element is a number that
    element [i] is not below or equal to, and no element exceeds it. *)
Lemma argmax_first_best (a : list float) (i : nat) (v : float) :
  a !! i = Some v ->
  (forall p x, p < i -> a !! p = Some x -> is_nan x = false /\ (v <=? x)%float = false) ->
  (forall q z, a !! q = Some z -> (z <=? v)%float = true) ->
  argmax a = inr i.
Proof.
  intros Hi Hbefore Hall.
  destruct (argmax_total a) as [k Hk]; [by intros ->|].
  rewrite Hk. f_equal.
  apply argmax_spec in Hk as (y & Hy & Hkbefore & Hkall).
  destruct (lt_eq_lt_dec k i) as [[Hlt| ->]|Hgt]; [|done|].
  - destruct (Hbefore k y Hlt Hy) as [Hyn Hvy].
    by rewrite (Hkall Hyn i v Hi) in Hvy.
  - destruct (Hkbefore i v Hgt Hi) as [_ Hyv].
    by rewrite (Hall k y Hy) in Hyv.
Qed.

(** ** Substrings and letter case *)

Lemma lower_app (a b : string) : lower (a +:+ b) = lower a +:+ lower b.
Proof. induction a as [|c a IH]; simpl; [done|]. by rewrite IH. Qed.

Lemma lower_app_inv (x y t : string) :
  lower t = x +:+ y ->
  exists t1 t2, t = t1 +:+ t2 /\ lower t1 = x /\ lower t2 = y.
Proof.
  revert t. induction x as [|c x IH]; intros t H.
  - by exists "", t.
  - destruct t as [|d t]; simpl in H; [done|]. injection H as Hc H.
    destruct (IH _ H) as (t1 & t2 & -> & <- & <-).
    exists (String d t1), t2. simpl. by rewrite Hc.
Qed.

Lemma startswith_app (p s : string) : startswith p (p +:+ s) = true.
Proof.
  induction p as [|c p IH]; simpl; [by destruct s|]. by rewrite Ascii.eqb_refl.
Qed.

Lemma startswith_inv (p s : string) :
  startswith p s = true -> exists t, s = p +:+ t.
Proof.
  revert s. induction p as [|c p IH]; intros s H.
  - by exists s.
  - destruct s as [|d s]; simpl in H; [done|].
    destruct (Ascii.eqb_spec c d) as [->|]; [|done].
    destruct (IH _ H) as [t ->]. by exists t.
Qed.

Lemma contains_app (p a b : string) : contains p (a +:+ p +:+ b) = true.
Proof.
  induction a as [|c a IH]; simpl.
  - destruct (p +:+ b) eqn:E; simpl; rewrite <- E, startswith_app; done.
  - rewrite IH. apply orb_true_r.
Qed.

Lemma contains_inv (p s : string) :
  contains p s = true -> exists a b, s = a +:+ p +:+ b.
Proof.
  induction s as [|c s IH]; simpl; intros H.
  - rewrite orb_false_r in H. apply startswith_inv in H as [t ->]. by exists "", t.
  - apply orb_true_iff in H as [H|H].
    + apply startswith_inv in H as [t ->]. by exists "", t.
    + destruct (IH H) as (a & b & ->). by exists (String c a), b.
Qed.

(** [sentinel in text.lower()] holds exactly for the texts that hold the
    phrase in some letter case. *)
Lemma contains_sentinel_lower (text : string) :
  contains sentinel (lower text) = true <-> mentions_sentinel text.
Proof.
  split.
  - intros H. apply contains_inv in H as (a & b & H).
    apply lower_app_inv in H as (t1 & t23 & -> & _ & H).
    apply lower_app_inv in H as (t2 & t3 & -> & H & _).
    by exists t1, t2, t3.
  - intros (a & u & b & -> & H).
    rewrite !lower_app, H. apply contains_app.
Qed.

Lemma sanitize_faqs_key : sanitize_storage_key "faqs" = "faqs".
Proof. reflexivity. Qed.

(** ** The engine *)

Section EngineFacts.
Context {sk : Tfidf}.
Variable openai_client : option ChatCompletions.

Lemma add_faqs_rebuilt (kb : list FAQItem.t) (m : Model) (self : VectorSearch) :
  kb <> [] -> fit (document <$> kb) = Some m ->
  add_faqs kb self = (inr tt, rebuilt kb m).
Proof.
  destruct kb as [|e kb]; [done|]. intros _ Hfit.
  unfold add_faqs, fit_transform. by rewrite Hfit.
Qed.

Lemma add_faqs_empty (self : VectorSearch) :
  add_faqs [] self =
  (inr tt, {| vectorizer := vectorizer self; faqs := [];
              vectors := None; initialized := false |}).
Proof. done. Qed.

(** A rebuild that returns leaves an index that does not depend on the one
    it started from, except for the vectorizer an empty list leaves alone. *)
Lemma add_faqs_returns (kb : list FAQItem.t) (self self' : VectorSearch) :
  add_faqs kb self = (inr tt, self') ->
  faqs self' = kb /\
  match kb with
  | [] => self' = {| vectorizer := vectorizer self; faqs := [];
                    vectors := None; initialized := false |}
  | _ :: _ => exists m, fit (document <$> kb) = Some m /\ self' = rebuilt kb m
  end.
Proof.
  destruct kb as [|e kb]; [by intros [= <-]|].
  unfold add_faqs, fit_transform.
  destruct (fit (document <$> e :: kb)) as [m|] eqn:Hfit; [|done].
  intros [= <-]. eauto.
Qed.

Lemma get_faqs_indexed (w : World) (kb : list FAQItem.t) (m : Model) :
  Indexed w kb m ->
  get_faqs w = (inr kb, with_vector_search w (rebuilt kb m)).
Proof.
  intros (Hkb & Hne & Hfit).
  unfold get_faqs, try_except, bind, storage_get, gets, on_vector_search, ret.
  rewrite Hkb, (add_faqs_rebuilt kb m _ Hne Hfit). done.
Qed.

Lemma get_faqs_empty (w : World) :
  default [] (storage w !! "faqs") = [] ->
  exists vs, get_faqs w = (inr [], with_vector_search w vs).
Proof.
  intros Hkb.
  unfold get_faqs, try_except, bind, storage_get, gets, on_vector_search, ret.
  rewrite Hkb, add_faqs_empty. eauto.
Qed.

Lemma similarities_rebuilt (kb : list FAQItem.t) (m : Model) (query : string) :
  similarities (rebuilt kb m) query = inr (score m query <$> kb).
Proof.
  unfold similarities, rebuilt, score; simpl. f_equal.
  rewrite <- !list_fmap_compose. done.
Qed.

(** [search] is its selection of the best row, then the threshold. *)
Lemma search_best_match (self : VectorSearch) (query : string) (threshold : float) :
  initialized self = true -> faqs self <> [] ->
  search self query threshold =
  (found <~ best_match self query ;;
   if geb found.2 threshold
   then best <~ getitem (faqs self) found.1 ;; inr (Some best, found.2)
   else inr (None, found.2)).
Proof.
  intros Hinit Hne. unfold search, best_match.
  rewrite Hinit, bool_decide_eq_false_2 by done. simpl.
  destruct (similarities self query) as [e|sims]; simpl; [done|].
  destruct (argmax sims) as [e|k]; simpl; [done|].
  destruct (getitem sims k) as [e|s]; simpl; done.
Qed.

(** On a rebuilt index the selection succeeds: a row of the knowledge base
    and the score of that row's entry. *)
Lemma best_match_rebuilt (kb : list FAQItem.t) (m : Model) (query : string) :
  kb <> [] ->
  exists k e,
    best_match (rebuilt kb m) query = inr (k, score m query e) /\
    argmax (score m query <$> kb) = inr k /\ kb !! k = Some e.
Proof.
  intros Hne. unfold best_match. rewrite similarities_rebuilt. simpl.
  destruct (argmax_total (score m query <$> kb)) as [k Hk].
  { by destruct kb. }
  destruct (argmax_spec _ _ Hk) as (y & Hy & _).
  apply list_lookup_fmap_Some in Hy as (e & -> & He).
  exists k, e. rewrite Hk. simpl. unfold getitem.
  rewrite list_lookup_fmap, He. done.
Qed.

Lemma best_match_rebuilt_inv (kb : list FAQItem.t) (m : Model) (query : string)
    (k : nat) (s : float) :
  best_match (rebuilt kb m) query = inr (k, s) ->
  argmax (score m query <$> kb) = inr k /\
  exists e, kb !! k = Some e /\ s = score m query e.
Proof.
  unfold best_match. rewrite similarities_rebuilt. simpl.
  destruct (argmax (score m query <$> kb)) as [x|k'] eqn:Hk; simpl; [done|].
  unfold getitem. rewrite list_lookup_fmap.
  destruct (kb !! k') as [e|] eqn:He; simpl; [|done].
  intros [= <- <-]. eauto.
Qed.

(** [search_faq] on a stored knowledge base that indexes. *)
Lemma search_faq_indexed (w : World) (kb : list FAQItem.t) (m : Model)
    (request : QueryRequest.t) :
  Indexed w kb m ->
  search_faq openai_client request w =
  let w1 := with_vector_search w (rebuilt kb m) in
  match search (rebuilt kb m) (QueryRequest.question request)
               (QueryRequest.confidence_threshold request) with
  | inl e => (inl e, w1)
  | inr (Some best_match, confidence) =>
      (inr {| QueryResponse.answer := Some (FAQItem.answer best_match);
              QueryResponse.confidence := confidence;
              QueryResponse.source_faq_id := Some (FAQItem.id best_match);
              QueryResponse.has_answer := true |}, w1)
  | inr (None, confidence) =>
      fallback openai_client kb (QueryRequest.question request) confidence w1
  end.
Proof.
  intros Hw. unfold search_faq, bind at 1.
  rewrite (get_faqs_indexed _ _ _ Hw).
  destruct Hw as (_ & Hne & _). destruct kb as [|e0 kb']; [done|].
  unfold bind, on_vector_search, with_vector_search; simpl.
  destruct (search _ _ _) as [x|[[best|] c]]; done.
Qed.

Lemma search_accepts (self : VectorSearch) (query : string) (threshold : float)
    (k : nat) (s : float) (e : FAQItem.t) :
  initialized self = true -> faqs self !! k = Some e ->
  best_match self query = inr (k, s) -> geb s threshold = true ->
  search self query threshold = inr (Some e, s).
Proof.
  intros Hinit He Hbest Hge.
  rewrite search_best_match, Hbest; [|done|by intros Hnil; rewrite Hnil in He].
  simpl. rewrite Hge. unfold getitem. by rewrite He.
Qed.

Lemma search_rejects (self : VectorSearch) (query : string) (threshold : float)
    (k : nat) (s : float) :
  initialized self = true -> faqs self <> [] ->
  best_match self query = inr (k, s) -> geb s threshold = false ->
  search self query threshold = inr (None, s).
Proof.
  intros Hinit Hne Hbest Hge.
  rewrite search_best_match, Hbest by done. simpl. by rewrite Hge.
Qed.

(** The fallback path when no client is configured or the call raises. *)
Lemma fallback_unavailable (kb : list FAQItem.t) (user_question : string)
    (confidence : float) (w : World) :
  (openai_client = None \/
   exists client, openai_client = Some client /\ fallback_raises client kb user_question) ->
  (fallback openai_client kb user_question confidence w).1 =
  inr {| QueryResponse.answer := None;
         QueryResponse.confidence := confidence;
         QueryResponse.source_faq_id := None;
         QueryResponse.has_answer := false |}.
Proof.
  intros [->|(client & -> & Hraises)]; [done|].
  unfold fallback_raises in Hraises.
  unfold fallback, fallback_try, try_except, chat_completions_create, bind, modify, lift, ret.
  destruct (client _ _) as [x|[|[text|] others]]; done.
Qed.

(** The fallback path when the call returns [text]. *)
Lemma fallback_returned (client : ChatCompletions) (kb : list FAQItem.t)
    (user_question text : string) (confidence : float) (w : World) :
  openai_client = Some client ->
  fallback_returns client kb user_question text ->
  (fallback openai_client kb user_question confidence w).1 =
  inr (if contains sentinel (lower text)
       then {| QueryResponse.answer := None;
               QueryResponse.confidence := 0.4;
               QueryResponse.source_faq_id := None;
               QueryResponse.has_answer := false |}
       else {| QueryResponse.answer := Some text;
               QueryResponse.confidence := 0.7;
               QueryResponse.source_faq_id := None;
               QueryResponse.has_answer := true |}).
Proof.
  intros -> [others Hreturns].
  unfold fallback, fallback_try, try_except, chat_completions_create, bind, modify, lift, ret.
  rewrite Hreturns. simpl. by destruct (contains sentinel (lower text)).
Qed.

(** ** The claims *)

(** C2. For every initialized index and every query, a best similarity
    score equal to the threshold is accepted: [search] returns the entry of
    the best row, and [search_faq], which searches the index it has just
    rebuilt, answers with that entry. A best score strictly below the
    threshold is not: [search] returns no entry and [search_faq] continues
    with the fallback path. *)
Theorem threshold_is_inclusive (self : VectorSearch) (query : string)
    (threshold : float) (k : nat) (s : float) (e : FAQItem.t) :
  initialized self = true ->
  faqs self !! k = Some e ->
  best_match self query = inr (k, s) ->
  let request := {| QueryRequest.question := query;
                    QueryRequest.confidence_threshold := threshold |} in
  ((s =? threshold)%float = true ->
   search self query threshold = inr (Some e, s) /\
   forall (w : World) (m : Model),
     Indexed w (faqs self) m -> self = rebuilt (faqs self) m ->
     search_faq openai_client request w =
     (inr {| QueryResponse.answer := Some (FAQItem.answer e);
             QueryResponse.confidence := s;
             QueryResponse.source_faq_id := Some (FAQItem.id e);
             QueryResponse.has_answer := true |},
      with_vector_search w self)) /\
  ((s <? threshold)%float = true ->
   search self query threshold = inr (None, s) /\
   forall (w : World) (m : Model),
     Indexed w (faqs self) m -> self = rebuilt (faqs self) m ->
     search_faq openai_client request w =
     fallback openai_client (faqs self) query s (with_vector_search w self)).
Proof.
  intros Hinit He Hbest request.
  assert (Hne : faqs self <> []) by (intros Hnil; by rewrite Hnil in He).
  split; intros Hs.
  - assert (Hsearch : search self query threshold = inr (Some e, s)).
    { apply (search_accepts _ _ _ k); [done..|]. by apply float_eqb_geb. }
    split; [done|]. intros w m Hw Hself.
    rewrite (search_faq_indexed w _ m request Hw). cbv zeta. simpl.
    by rewrite <- Hself, Hsearch.
  - assert (Hsearch : search self query threshold = inr (None, s)).
    { apply (search_rejects _ _ _ k); [done..|]. by apply float_ltb_geb. }
    split; [done|]. intros w m Hw Hself.
    rewrite (search_faq_indexed w _ m request Hw). cbv zeta. simpl.
    by rewrite <- Hself, Hsearch.
Qed.

(** C3. On a knowledge base that indexes, when the best similarity score is
    below the threshold and the fallback client is not configured, or its
    call raises, [search_faq] returns, without raising, no answer and that
    score as confidence. *)
Theorem fallback_failure_keeps_score (w : World) (kb : list FAQItem.t) (m : Model)
    (request : QueryRequest.t) (k : nat) (s : float) :
  Indexed w kb m ->
  best_match (rebuilt kb m) (QueryRequest.question request) = inr (k, s) ->
  (s <? QueryRequest.confidence_threshold request)%float = true ->
  (openai_client = None \/
   exists client, openai_client = Some client /\
                  fallback_raises client kb (QueryRequest.question request)) ->
  (search_faq openai_client request w).1 =
  inr {| QueryResponse.answer := None;
         QueryResponse.confidence := s;
         QueryResponse.source_faq_id := None;
         QueryResponse.has_answer := false |}.
Proof.
  intros Hw Hbest Hs Hclient.
  rewrite (search_faq_indexed w kb m request Hw). cbv zeta.
  destruct Hw as (_ & Hne & _).
  rewrite (search_rejects _ _ _ k s); [|done..|by apply float_ltb_geb].
  by apply fallback_unavailable.
Qed.

(** C4. When [search] finds no entry and the fallback call returns a text
    that holds the sentinel phrase in any letter case, [search_faq] returns
    no answer with confidence 0.4. *)
Theorem declined_fallback (w : World) (kb : list FAQItem.t) (m : Model)
    (request : QueryRequest.t) (client : ChatCompletions) (c : float) (text : string) :
  Indexed w kb m ->
  search (rebuilt kb m) (QueryRequest.question request)
         (QueryRequest.confidence_threshold request) = inr (None, c) ->
  openai_client = Some client ->
  fallback_returns client kb (QueryRequest.question request) text ->
  mentions_sentinel text ->
  (search_faq openai_client request w).1 =
  inr {| QueryResponse.answer := None;
         QueryResponse.confidence := 0.4;
         QueryResponse.source_faq_id := None;
         QueryResponse.has_answer := false |}.
Proof.
  intros Hw Hsearch Hclient Hreturns Htext.
  rewrite (search_faq_indexed w kb m request Hw). cbv zeta. rewrite Hsearch.
  rewrite (fallback_returned client _ _ text) by done.
  apply contains_sentinel_lower in Htext. by rewrite Htext.
Qed.

(** C5. When [search] finds no entry and the fallback call returns a text
    that holds the sentinel phrase in no letter case, [search_faq] returns
    that text as the answer, with confidence 0.7 and no source entry. *)
Theorem generated_fallback (w : World) (kb : list FAQItem.t) (m : Model)
    (request : QueryRequest.t) (client : ChatCompletions) (c : float) (text : string) :
  Indexed w kb m ->
  search (rebuilt kb m) (QueryRequest.question request)
         (QueryRequest.confidence_threshold request) = inr (None, c) ->
  openai_client = Some client ->
  fallback_returns client kb (QueryRequest.question request) text ->
  ~ mentions_sentinel text ->
  (search_faq openai_client request w).1 =
  inr {| QueryResponse.answer := Some text;
         QueryResponse.confidence := 0.7;
         QueryResponse.source_faq_id := None;
         QueryResponse.has_answer := true |}.
Proof.
  intros Hw Hsearch Hclient Hreturns Htext.
  rewrite (search_faq_indexed w kb m request Hw). cbv zeta. rewrite Hsearch.
  rewrite (fallback_returned client _ _ text) by done.
  destruct (contains sentinel (lower text)) eqn:Hin; [|done].
  by apply contains_sentinel_lower in Hin.
Qed.

(** C6. When the stored knowledge base is empty, [search_faq] returns no
    answer with confidence 0.0 and the log of client calls is unchanged. *)
Theorem empty_knowledge_base (w : World) (request : QueryRequest.t) :
  default [] (storage w !! "faqs") = [] ->
  (search_faq openai_client request w).1 =
  inr {| QueryResponse.answer := None;
         QueryResponse.confidence := 0;
         QueryResponse.source_faq_id := None;
         QueryResponse.has_answer := false |} /\
  openai_calls (search_faq openai_client request w).2 = openai_calls w.
Proof.
  intros Hkb. destruct (get_faqs_empty w Hkb) as [vs Hget].
  unfold search_faq, bind. by rewrite Hget.
Qed.

End EngineFacts.

(** [Indexed] on a concrete world, by evaluation. *)
Ltac indexed :=
  split; [vm_compute; reflexivity | split; [discriminate | vm_compute; reflexivity]].

Lemma threshold_is_inclusive_witness :
  search_faq (sk := sklearn_unit) None
    {| QueryRequest.question := "password"; QueryRequest.confidence_threshold := 1 |}
    (world_of [faq_bare]) =
  (inr {| QueryResponse.answer := Some "?";
          QueryResponse.confidence := 1;
          QueryResponse.source_faq_id := Some "faq-3";
          QueryResponse.has_answer := true |},
   with_vector_search (world_of [faq_bare]) (rebuilt [faq_bare] (model_of [faq_bare]))) /\
  search (sk := sklearn_unit) (rebuilt [faq_bare] (model_of [faq_bare]))
         "password" 0x1.0000000000001p+0 = inr (None, 1%float).
Proof.
  split.
  - destruct (threshold_is_inclusive (sk := sklearn_unit) None
                (rebuilt [faq_bare] (model_of [faq_bare])) "password" 1 0 1 faq_bare)
      as [Haccept _].
    + reflexivity.
    + reflexivity.
    + vm_compute. reflexivity.
    + destruct (Haccept eq_refl) as [_ Hfaq].
      apply (Hfaq (world_of [faq_bare]) (model_of [faq_bare])); [indexed|reflexivity].
  - destruct (threshold_is_inclusive (sk := sklearn_unit) None
                (rebuilt [faq_bare] (model_of [faq_bare])) "password"
                0x1.0000000000001p+0 0 1 faq_bare)
      as [_ Hreject].
    + reflexivity.
    + reflexivity.
    + vm_compute. reflexivity.
    + destruct (Hreject eq_refl) as [Hsearch _]. exact Hsearch.
Defined.

Lemma fallback_failure_keeps_score_witness :
  (search_faq (sk := sklearn_unit) None weather_request (world_of [faq_password])).1 =
  inr {| QueryResponse.answer := None;
         QueryResponse.confidence := 0.2672612419124244;
         QueryResponse.source_faq_id := None;
         QueryResponse.has_answer := false |} /\
  (search_faq (sk := sklearn_unit) (Some client_down) weather_request
     (world_of [faq_password])).1 =
  inr {| QueryResponse.answer := None;
         QueryResponse.confidence := 0.2672612419124244;
         QueryResponse.source_faq_id := None;
         QueryResponse.has_answer := false |}.
Proof.
  split;
    apply (fallback_failure_keeps_score (sk := sklearn_unit) _ (world_of [faq_password])
             [faq_password] (model_of [faq_password]) weather_request 0).
  - indexed.
  - vm_compute. reflexivity.
  - vm_compute. reflexivity.
  - left. reflexivity.
  - indexed.
  - vm_compute. reflexivity.
  - vm_compute. reflexivity.
  - right. exists client_down. split; [reflexivity | exact I].
Defined.

Lemma declined_fallback_witness :
  (search_faq (sk := sklearn_unit) (Some client_declines) weather_request
     (world_of [faq_password])).1 =
  inr {| QueryResponse.answer := None;
         QueryResponse.confidence := 0.4;
         QueryResponse.source_faq_id := None;
         QueryResponse.has_answer := false |}.
Proof.
  apply (declined_fallback (sk := sklearn_unit) _ (world_of [faq_password])
           [faq_password] (model_of [faq_password]) weather_request client_declines
           0.2672612419124244
           "I DON'T HAVE ENOUGH INFORMATION to answer this question.").
  - indexed.
  - vm_compute. reflexivity.
  - reflexivity.
  - exists []. reflexivity.
  - exists "I ", "DON'T HAVE ENOUGH INFORMATION", " to answer this question.".
    split; reflexivity.
Defined.

Lemma generated_fallback_witness :
  (search_faq (sk := sklearn_unit) (Some client_answers) weather_request
     (world_of [faq_password])).1 =
  inr {| QueryResponse.answer := Some "Use the link on the login page.";
         QueryResponse.confidence := 0.7;
         QueryResponse.source_faq_id := None;
         QueryResponse.has_answer := true |}.
Proof.
  apply (generated_fallback (sk := sklearn_unit) _ (world_of [faq_password])
           [faq_password] (model_of [faq_password]) weather_request client_answers
           0.2672612419124244).
  - indexed.
  - vm_compute. reflexivity.
  - reflexivity.
  - exists []. reflexivity.
  - intros Hin. apply contains_sentinel_lower in Hin. vm_compute in Hin. discriminate.
Defined.

Lemma empty_knowledge_base_witness :
  (search_faq (sk := sklearn_unit) (Some client_answers) weather_request empty_world).1 =
  inr {| QueryResponse.answer := None;
         QueryResponse.confidence := 0;
         QueryResponse.source_faq_id := None;
         QueryResponse.has_answer := false |} /\
  openai_calls
    (search_faq (sk := sklearn_unit) (Some client_answers) weather_request empty_world).2 = [].
Proof.
  apply (empty_knowledge_base (sk := sklearn_unit) (Some client_answers)
           empty_world weather_request).
  vm_compute. reflexivity.
Defined.

(** ** Rebuilding and updating *)

Section UpdateFacts.
Context {sk : Tfidf}.


(** [save_faqs] stores the list whether or not the rebuild that follows
    returns. *)
Lemma save_faqs_storage (new_faqs : list FAQItem.t) (w : World) :
  storage (save_faqs new_faqs w).2 !! "faqs" = Some new_faqs.
Proof.
  unfold save_faqs, bind, storage_put, modify, on_vector_search. simpl.
  destruct (add_faqs new_faqs (vector_search w)) as [[e|[]] vs]; simpl;
    by rewrite lookup_insert_eq.
Qed.

(** [update_faq] on a stored knowledge base that indexes and holds the
    identifier at row [i]. *)
Lemma update_faq_indexed (w : World) (kb : list FAQItem.t) (m : Model)
    (now : datetime) (faq_id : string) (request : UpdateFAQRequest.t)
    (i : nat) (old : FAQItem.t) :
  Indexed w kb m -> find_index faq_id kb = Some i -> kb !! i = Some old ->
  let updated_faq :=
    {| FAQItem.id := faq_id;
       FAQItem.question := UpdateFAQRequest.question request;
       FAQItem.answer := UpdateFAQRequest.answer request;
       FAQItem.tags := tags_or (UpdateFAQRequest.tags request) (FAQItem.tags old);
       FAQItem.created_at := FAQItem.created_at old;
       FAQItem.updated_at := now |} in
  update_faq now faq_id request w =
  (save_faqs (<[i := updated_faq]> kb) ;;; ret {| faq := updated_faq |})
    (with_vector_search w (rebuilt kb m)).
Proof.
  intros Hw Hfind Hold updated_faq.
  unfold update_faq, bind at 1. rewrite (get_faqs_indexed _ _ _ Hw), Hfind.
  unfold bind at 1, lift, getitem. by rewrite Hold.
Qed.

(** A rebuild that raises, repeated with the same list, raises again. *)
Lemma rebuild_raises_again (kb : list FAQItem.t) (self self1 : VectorSearch) (e : Exn) :
  add_faqs kb self = (inl e, self1) -> (add_faqs kb self1).1 = inl e.
Proof.
  destruct kb as [|f kb]; [done|].
  unfold add_faqs, fit_transform.
  destruct (fit (document <$> f :: kb)) as [m|] eqn:Hfit; [done|].
  by intros [= <- _].
Qed.

(** C8. A rebuild that returns, repeated with the same list, returns again
    and leaves the same index: every query gets the same result from
    [search] after the second rebuild as after the first. *)
Theorem rebuild_idempotent (kb : list FAQItem.t) (self self1 : VectorSearch) :
  add_faqs kb self = (inr tt, self1) ->
  add_faqs kb self1 = (inr tt, self1) /\
  forall query threshold,
    search (add_faqs kb self1).2 query threshold = search self1 query threshold.
Proof.
  intros Hfirst.
  assert (Hsecond : add_faqs kb self1 = (inr tt, self1)).
  { destruct (add_faqs_returns _ _ _ Hfirst) as [_ Hself1].
    destruct kb as [|e kb].
    - by rewrite Hself1.
    - destruct Hself1 as (m & Hfit & ->). by apply add_faqs_rebuilt. }
  split; [done|]. intros query threshold. by rewrite Hsecond.
Qed.


(** C10. When the request carries no tags, or an empty list of tags, the
    stored entry keeps the tags it had; and whatever the request carries,
    an entry that had tags still has some after the update. *)
Theorem update_keeps_tags (w : World) (kb : list FAQItem.t) (m : Model)
    (now : datetime) (faq_id : string) (request : UpdateFAQRequest.t)
    (i : nat) (old : FAQItem.t) :
  Indexed w kb m -> find_index faq_id kb = Some i -> kb !! i = Some old ->
  exists updated : FAQItem.t,
    storage (update_faq now faq_id request w).2 !! "faqs" = Some (<[i := updated]> kb) /\
    (UpdateFAQRequest.tags request = None \/ UpdateFAQRequest.tags request = Some [] ->
     FAQItem.tags updated = FAQItem.tags old) /\
    (FAQItem.tags old <> [] -> FAQItem.tags updated <> []).
Proof.
  intros Hw Hfind Hold.
  rewrite (update_faq_indexed w kb m now faq_id request i old Hw Hfind Hold). cbv zeta.
  set (updated := FAQItem.Build _ _ _ _ _ _).
  exists updated. split; [|split].
  - unfold bind.
    pose proof (save_faqs_storage (<[i := updated]> kb)
                  (with_vector_search w (rebuilt kb m))) as Hstore.
    destruct (save_faqs _ _) as [[e|[]] w']; done.
  - subst updated. simpl. by intros [->| ->].
  - subst updated. simpl. intros Hold_tags. unfold tags_or.
    destruct (UpdateFAQRequest.tags request) as [[|t l]|]; done.
Qed.

End UpdateFacts.

(** ** Which entry [search] returns *)

Section SearchFacts.
Context {sk : Tfidf}.

Lemma score_document (m : Model) (query : string) (e1 e2 : FAQItem.t) :
  document e1 = document e2 -> score m query e1 = score m query e2.
Proof. unfold score. by intros ->. Qed.

(** C1, amended. On a knowledge base that indexes, [search] with the exact
    text of an entry's question returns that entry, and as score the
    similarity of the question to the entry's indexed document (question,
    space, answer), whenever that score reaches the threshold, is not
    reached by the score of an earlier entry and is not exceeded by the
    score of any entry. *)
Theorem search_own_question (kb : list FAQItem.t) (m : Model) (self : VectorSearch)
    (i : nat) (e : FAQItem.t) (threshold : float) :
  fit (document <$> kb) = Some m ->
  kb !! i = Some e ->
  let query := FAQItem.question e in
  (forall p x, p < i -> kb !! p = Some x ->
               is_nan (score m query x) = false /\
               (score m query e <=? score m query x)%float = false) ->
  (forall p x, kb !! p = Some x -> (score m query x <=? score m query e)%float = true) ->
  geb (score m query e) threshold = true ->
  add_faqs kb self = (inr tt, rebuilt kb m) /\
  search (rebuilt kb m) query threshold = inr (Some e, score m query e).
Proof.
  intros Hfit He query Hbefore Hall Hge.
  assert (Hne : kb <> []) by (by intros ->).
  split; [by apply add_faqs_rebuilt|].
  apply (search_accepts _ _ _ i); [done..| |done].
  unfold best_match. rewrite similarities_rebuilt. simpl.
  rewrite (argmax_first_best _ i (score m query e)).
  - simpl. unfold getitem. by rewrite list_lookup_fmap, He.
  - by rewrite list_lookup_fmap, He.
  - intros p y Hp Hy. apply list_lookup_fmap_Some in Hy as (x & -> & Hx). by eapply Hbefore.
  - intros p y Hy. apply list_lookup_fmap_Some in Hy as (x & -> & Hx). by eapply Hall.
Qed.

(** C7. In a knowledge base that indexes and holds, at rows [i < j], two
    entries with the same question and answer text, an entry that [search]
    returns sits at the row it selected and that row is never [j]; and
    when no entry scores above the two and their score reaches the
    threshold, [search] returns an entry of a row no later than [i] whose
    score equals theirs. *)
Theorem tie_break_lowest_index (kb : list FAQItem.t) (m : Model)
    (i j : nat) (ei ej : FAQItem.t) (query : string) (threshold : float) :
  i < j -> kb !! i = Some ei -> kb !! j = Some ej ->
  document ei = document ej ->
  (forall r s, search (rebuilt kb m) query threshold = inr (Some r, s) ->
     exists k, best_match (rebuilt kb m) query = inr (k, s) /\
               kb !! k = Some r /\ k <> j) /\
  ((forall p x, kb !! p = Some x -> (score m query x <=? score m query ej)%float = true) ->
   geb (score m query ej) threshold = true ->
   exists k r s, search (rebuilt kb m) query threshold = inr (Some r, s) /\
                 kb !! k = Some r /\ k <= i /\ (s =? score m query ej)%float = true).
Proof.
  intros Hij Hi Hj Hdoc.
  assert (Hne : kb <> []) by (by intros ->).
  pose proof (score_document m query _ _ Hdoc) as Hscore.
  split.
  - intros r s. rewrite search_best_match by done.
    destruct (best_match (rebuilt kb m) query) as [x|[k s']] eqn:Hbest; simpl; [done|].
    destruct (geb s' threshold); [|done].
    unfold getitem. destruct (kb !! k) as [e|] eqn:He; simpl; [|done].
    intros [= <- <-]. exists k. split; [done|]. split; [done|].
    apply best_match_rebuilt_inv in Hbest as [Hk _].
    intros ->. revert Hk. apply (argmax_tie _ i j (score m query ej)); [done|..].
    + rewrite list_lookup_fmap, Hi. simpl. by rewrite Hscore.
    + by rewrite list_lookup_fmap, Hj.
  - intros Hmax Hge.
    destruct (best_match_rebuilt kb m query Hne) as (k & e & Hbest & Hk & He).
    destruct (argmax_spec _ _ Hk) as (y & Hy & Hbefore & Hall).
    rewrite list_lookup_fmap, He in Hy. injection Hy as <-.
    pose proof (Hmax _ _ He) as Hle.
    destruct (float_leb_not_nan _ _ Hle) as [Hnan _].
    assert (Hle' : (score m query ej <=? score m query e)%float = true).
    { apply (Hall Hnan j). by rewrite list_lookup_fmap, Hj. }
    exists k, e, (score m query e). split; [|split; [done|split]].
    + apply (search_accepts _ _ _ k); [done..|].
      unfold geb in *. by eapply float_leb_trans.
    + destruct (le_lt_dec k i) as [|Hik]; [done|].
      destruct (Hbefore i (score m query ei) Hik) as [_ Hlt].
      { by rewrite list_lookup_fmap, Hi. }
      rewrite Hscore in Hlt. congruence.
    + by apply float_leb_antisym.
Qed.

End SearchFacts.

(** ** The examples *)

(** [faq_hello] under scikit-learn, for any logarithm that is exact at 1.0:
    its question scores about 0.24 against its own document, below the
    default threshold. *)
Lemma search_hello (np_log : float -> float)
    (self : VectorSearch (sk := Sklearn.tfidf np_log)) :
  np_log 1%float = 0%float ->
  search (sk := Sklearn.tfidf np_log) (add_faqs [faq_hello] self).2
         (FAQItem.question faq_hello) search_default_threshold =
  inr (None, 0.24253562503633297%float).
Proof.
  intros Hlog. vm_compute. rewrite Hlog. vm_compute. reflexivity.
Qed.

(** C1, as stated, fails on the knowledge base [[faq_hello]]: for no
    logarithm that is exact at 1.0 does [search] with the entry's question
    return the entry with score 1.0. Under [sklearn_unit] it returns no
    entry and the score 0.24253562503633297. *)
Lemma search_own_question_counterexample :
  (~ exists np_log : float -> float,
       np_log 1%float = 0%float /\
       exists r : FAQItem.t,
         search (sk := Sklearn.tfidf np_log)
                (add_faqs (sk := Sklearn.tfidf np_log) [faq_hello] VectorSearch_init).2
                (FAQItem.question faq_hello) search_default_threshold =
         inr (Some r, 1%float) /\
         FAQItem.id r = FAQItem.id faq_hello) /\
  search (sk := sklearn_unit)
         (add_faqs (sk := sklearn_unit) [faq_hello] VectorSearch_init).2
         (FAQItem.question faq_hello) search_default_threshold =
  inr (None, 0.24253562503633297%float).
Proof.
  split.
  - intros (np_log & Hlog & r & Hsearch & _).
    rewrite (search_hello np_log _ Hlog) in Hsearch. discriminate.
  - vm_compute. reflexivity.
Qed.

(** The scenario of the password entry: its own question is accepted at
    threshold 0.5 with score 0.717, not 1.0. *)
Lemma search_own_question_witness :
  add_faqs (sk := sklearn_unit) [faq_password] VectorSearch_init =
  (inr tt, rebuilt [faq_password] (model_of [faq_password])) /\
  search (sk := sklearn_unit) (rebuilt [faq_password] (model_of [faq_password]))
         "How do I reset my password?" 0.5 =
  inr (Some faq_password, 0.71713716560063623%float).
Proof.
  apply (search_own_question (sk := sklearn_unit) [faq_password]
           (model_of [faq_password]) VectorSearch_init 0 faq_password 0.5).
  - vm_compute. reflexivity.
  - reflexivity.
  - intros p x Hp. lia.
  - intros [|p] x Hx; [|discriminate]. injection Hx as <-. vm_compute. reflexivity.
  - vm_compute. reflexivity.
Defined.

Lemma tie_break_lowest_index_witness :
  exists (k : nat) (r : FAQItem.t) (s : float),
    search (sk := sklearn_unit)
           (rebuilt [faq_password; faq_password_again]
                    (model_of [faq_password; faq_password_again]))
           "How do I reset my password?" 0.5 = inr (Some r, s) /\
    [faq_password; faq_password_again] !! k = Some r /\ k <= 0 /\
    (s =? score (sk := sklearn_unit) (model_of [faq_password; faq_password_again])
            "How do I reset my password?" faq_password_again)%float = true.
Proof.
  apply (tie_break_lowest_index (sk := sklearn_unit)
           [faq_password; faq_password_again]
           (model_of [faq_password; faq_password_again])
           0 1 faq_password faq_password_again "How do I reset my password?" 0.5).
  - lia.
  - reflexivity.
  - reflexivity.
  - reflexivity.
  - intros [|[|p]] x Hx; [| |discriminate]; injection Hx as <-; vm_compute; reflexivity.
  - vm_compute. reflexivity.
Defined.

Lemma rebuild_idempotent_witness :
  add_faqs (sk := sklearn_unit) [faq_password]
           (rebuilt [faq_password] (model_of [faq_password])) =
  (inr tt, rebuilt [faq_password] (model_of [faq_password])) /\
  forall query threshold,
    search (sk := sklearn_unit)
           (add_faqs [faq_password] (rebuilt [faq_password] (model_of [faq_password]))).2
           query threshold =
    search (rebuilt [faq_password] (model_of [faq_password])) query threshold.
Proof.
  apply (rebuild_idempotent (sk := sklearn_unit) [faq_password] VectorSearch_init).
  apply add_faqs_rebuilt; [discriminate | vm_compute; reflexivity].
Defined.



Lemma update_keeps_tags_witness :
  exists updated : FAQItem.t,
    storage (update_faq (sk := sklearn_unit) 1700009999%Z "faq-1" password_update
               (world_of [faq_password])).2 !! "faqs" = Some [updated] /\
    FAQItem.tags updated = ["account"].
Proof.
  destruct (update_keeps_tags (sk := sklearn_unit) (world_of [faq_password])
              [faq_password] (model_of [faq_password]) 1700009999%Z "faq-1"
              password_update 0 faq_password)
    as (updated & Hstore & Hkept & _).
  - indexed.
  - reflexivity.
  - reflexivity.
  - exists updated. split; [exact Hstore|]. apply Hkept. right. reflexivity.
Defined.

(** ** The definitions on small inputs *)

Example lower_mixed_case : lower "I Don't HAVE 2 Apples_" = "i don't have 2 apples_".
Proof. reflexivity. Qed.

Example contains_case_variant :
  contains sentinel (lower "Sorry, I DON'T have enough Information.") = true /\
  contains sentinel (lower "I do not have enough information.") = false /\
  contains "abc" "ab" = false /\ contains "" "" = true.
Proof. repeat split. Qed.

Example sanitize_storage_key_drops : sanitize_storage_key "faqs/../v1 x" = "faqs..v1x".
Proof. reflexivity. Qed.

Example join_three : join ", " ["a"; "b"; "c"] = "a, b, c" /\ join ", " [] = "".
Proof. split; reflexivity. Qed.

Example argmax_small :
  argmax [0.5; 1; 1; 0.25]%float = inr 1 /\
  argmax [0.5; nan; 2]%float = inr 1 /\
  argmax [0; (-0)]%float = inr 0 /\
  argmax [] = inl ValueError.
Proof. repeat split. Qed.

Example tags_or_python :
  tags_or None ["a"] = ["a"] /\ tags_or (Some []) ["a"] = ["a"] /\
  tags_or (Some ["b"; "c"]) ["a"] = ["b"; "c"].
Proof. repeat split. Qed.

Example find_index_first :
  find_index "faq-4" [faq_password; faq_password_again; faq_password_again] = Some 1 /\
  find_index "faq-9" [faq_password] = None.
Proof. split; reflexivity. Qed.

Example tokenize_password :
  Sklearn.tokenize (document faq_password) =
  ["how"; "do"; "reset"; "my"; "password"; "click"; "forgot"; "password";
   "on"; "the"; "login"; "page"].
Proof. reflexivity. Qed.

(** A knowledge base without any token of two characters does not fit:
    [add_faqs] raises, [get_faqs] returns the empty list and [search_faq]
    answers as for an empty knowledge base. *)
Example search_faq_unindexable :
  let kb := [ {| FAQItem.id := "faq-5"; FAQItem.question := "?"; FAQItem.answer := "!";
                 FAQItem.created_at := 0%Z; FAQItem.updated_at := 0%Z;
                 FAQItem.tags := [] |} ] in
  (add_faqs (sk := sklearn_unit) kb VectorSearch_init).1 = inl ValueError /\
  (search_faq (sk := sklearn_unit) None weather_request (world_of kb)).1 =
  inr QueryResponse.default.
Proof. split; vm_compute; reflexivity. Qed.

(** Binary64 rounding: an entry of two terms searched with its whole
    indexed text scores just above 1.0. *)
Example search_two_terms :
  let e := {| FAQItem.id := "faq-6"; FAQItem.question := "reset";
              FAQItem.answer := "password";
              FAQItem.created_at := 0%Z; FAQItem.updated_at := 0%Z;
              FAQItem.tags := [] |} in
  search (sk := sklearn_unit) (add_faqs [e] VectorSearch_init).2 "reset password" 0.5
  = inr (Some e, 0x1.0000000000001p+0%float).
Proof. vm_compute. reflexivity. Qed.

(** ** Storage keys *)

(** X1. A sanitized storage key holds only characters of the class
    [[a-zA-Z0-9._-]], a key that holds only such characters is returned as
    it is, and sanitizing twice is sanitizing once. *)
Theorem sanitize_storage_key_class (key : string) :
  string_forall storage_key_char (sanitize_storage_key key) = true /\
  (string_forall storage_key_char key = true -> sanitize_storage_key key = key) /\
  sanitize_storage_key (sanitize_storage_key key) = sanitize_storage_key key.
Proof.
  assert (Hclass : forall k, string_forall storage_key_char (sanitize_storage_key k) = true).
  { induction k as [|c k IH]; simpl; [done|].
    destruct (storage_key_char c) eqn:Hc; simpl; [|done]. by rewrite Hc, IH. }
  assert (Hfix : forall k, string_forall storage_key_char k = true ->
                           sanitize_storage_key k = k).
  { induction k as [|c k IH]; simpl; [done|].
    intros [Hc Hk]%andb_true_iff. by rewrite Hc, IH. }
  split; [apply Hclass|]. split; [apply Hfix|]. apply Hfix, Hclass.
Qed.

(** X2. Sanitizing goes through concatenation, and it never lengthens a
    key. *)
Theorem sanitize_storage_key_app (a b : string) :
  sanitize_storage_key (a +:+ b) = sanitize_storage_key a +:+ sanitize_storage_key b /\
  String.length (sanitize_storage_key a) <= String.length a.
Proof.
  split.
  - induction a as [|c a IH]; simpl; [done|].
    destruct (storage_key_char c); simpl; by rewrite IH.
  - induction a as [|c a IH]; simpl; [done|].
    destruct (storage_key_char c); simpl; lia.
Qed.

(** ** The storage helpers and the index *)

Section StorageFacts.
Context {sk : Tfidf}.

Lemma indexes_fit (kb : list FAQItem.t) :
  indexes kb = true -> kb <> [] -> exists m, fit (document <$> kb) = Some m.
Proof.
  destruct kb as [|e kb]; [done|]. unfold indexes.
  intros [m Hm]%bool_decide_eq_true _. eauto.
Qed.

Lemma indexes_false_fit (kb : list FAQItem.t) :
  indexes kb = false -> kb <> [] /\ fit (document <$> kb) = None.
Proof.
  destruct kb as [|e kb]; [done|]. unfold indexes.
  intros H%bool_decide_eq_false. split; [done|].
  destruct (fit _) eqn:Hfit; [|done]. destruct H. eauto.
Qed.

(** [add_faqs] by cases: it returns exactly on the lists that index. *)
Lemma add_faqs_cases (kb : list FAQItem.t) (self : VectorSearch) :
  faqs (add_faqs kb self).2 = kb /\
  ((indexes kb = true /\ (add_faqs kb self).1 = inr tt /\
    (kb = [] -> initialized (add_faqs kb self).2 = false) /\
    (kb <> [] -> exists m, fit (document <$> kb) = Some m /\
                           (add_faqs kb self).2 = rebuilt kb m)) \/
   (indexes kb = false /\ (add_faqs kb self).1 = inl ValueError)).
Proof.
  destruct (indexes kb) eqn:Hidx.
  - destruct kb as [|e kb].
    + split; [done|]. left. repeat split; done.
    + destruct (indexes_fit _ Hidx) as [m Hm]; [done|].
      rewrite (add_faqs_rebuilt _ m) by done.
      split; [done|]. left. repeat split; [done|]. intros _. eauto.
  - destruct (indexes_false_fit _ Hidx) as [Hne Hfit].
    destruct kb as [|e kb]; [done|].
    unfold add_faqs, fit_transform. rewrite Hfit. simpl. split; [done|]. by right.
Qed.

Lemma get_faqs_visible (w : World) :
  exists vs,
    get_faqs w = (inr (visible_faqs w), with_vector_search w vs) /\
    faqs vs = stored_faqs w /\
    (visible_faqs w = [] -> initialized vs = true -> indexes (stored_faqs w) = false) /\
    (visible_faqs w <> [] ->
     exists m, fit (document <$> visible_faqs w) = Some m /\
               vs = rebuilt (visible_faqs w) m).
Proof.
  unfold get_faqs, try_except, bind, storage_get, gets, on_vector_search, ret, visible_faqs.
  fold (stored_faqs w).
  destruct (add_faqs_cases (stored_faqs w) (vector_search w))
    as [Hfaqs [(Hidx & Hret & Hempty & Hfull)|(Hidx & Hret)]];
    destruct (add_faqs (stored_faqs w) (vector_search w)) as [r vs];
    simpl in *; subst r; rewrite Hidx; exists vs.
  - split; [done|]. split; [done|]. split; [|done].
    intros Hnil Hinit. rewrite (Hempty Hnil) in Hinit. done.
  - split; [done|]. split; [done|]. split; done.
Qed.

Lemma save_faqs_cases (new_faqs : list FAQItem.t) (w : World) :
  exists vs,
    (save_faqs new_faqs w).2 =
    {| storage := <["faqs" := new_faqs]> (storage w);
       vector_search := vs; openai_calls := openai_calls w |} /\
    faqs vs = new_faqs /\
    ((indexes new_faqs = true /\ (save_faqs new_faqs w).1 = inr tt /\
      (new_faqs = [] -> initialized vs = false) /\
      (new_faqs <> [] -> exists m, fit (document <$> new_faqs) = Some m /\
                                   vs = rebuilt new_faqs m)) \/
     (indexes new_faqs = false /\ (save_faqs new_faqs w).1 = inl ValueError)).
Proof.
  unfold save_faqs, bind, storage_put, modify, on_vector_search. simpl.
  destruct (add_faqs_cases new_faqs (vector_search w)) as [Hfaqs Hcases].
  destruct (add_faqs new_faqs (vector_search w)) as [r vs]. simpl in *.
  exists vs. destruct Hcases as [(Hidx & -> & Hrest)|(Hidx & ->)]; simpl.
  - split; [done|]. split; [done|]. left. done.
  - split; [done|]. split; [done|]. right. done.
Qed.

Lemma stored_faqs_insert (new_faqs : list FAQItem.t) (w : World) (vs : VectorSearch)
    (calls : list (string * list Message)) :
  stored_faqs {| storage := <["faqs" := new_faqs]> (storage w);
                 vector_search := vs; openai_calls := calls |} = new_faqs.
Proof. unfold stored_faqs. simpl. by rewrite lookup_insert_eq. Qed.

(** X3. [get_faqs] never raises and writes nothing: it returns the stored
    list, or the empty list when the rebuild of the index raises on the
    stored list, and it leaves the storage and the log of client calls as
    they were and the stored list in [vector_search.faqs]. *)
Theorem get_faqs_never_raises (w : World) :
  (get_faqs w).1 = inr (if indexes (stored_faqs w) then stored_faqs w else []) /\
  storage (get_faqs w).2 = storage w /\
  openai_calls (get_faqs w).2 = openai_calls w /\
  faqs (vector_search (get_faqs w).2) = stored_faqs w.
Proof.
  destruct (get_faqs_visible w) as (vs & -> & Hfaqs & _). done.
Qed.

Lemma add_faqs_again (kb : list FAQItem.t) (self vs : VectorSearch) :
  add_faqs kb self = (inr tt, vs) -> add_faqs kb vs = (inr tt, vs).
Proof.
  intros Hfirst. destruct (add_faqs_returns _ _ _ Hfirst) as [_ Hvs].
  destruct kb as [|e kb].
  - by rewrite Hvs.
  - destruct Hvs as (m & Hfit & ->). by apply add_faqs_rebuilt.
Qed.

(** X4. What [save_faqs] has saved, [get_faqs] reads back: after a
    [save_faqs] that returns, [get_faqs] returns the saved list and leaves
    the world as it is. *)
Theorem save_then_get_faqs (new_faqs : list FAQItem.t) (w : World) :
  (save_faqs new_faqs w).1 = inr tt ->
  get_faqs (save_faqs new_faqs w).2 = (inr new_faqs, (save_faqs new_faqs w).2).
Proof.
  unfold save_faqs, bind, storage_put, modify, on_vector_search. simpl.
  destruct (add_faqs new_faqs (vector_search w)) as [[e|[]] vs] eqn:Hadd; simpl; [done|].
  intros _.
  unfold get_faqs, try_except, bind, storage_get, gets, on_vector_search, ret. simpl.
  rewrite lookup_insert_eq. simpl. by rewrite (add_faqs_again _ _ _ Hadd).
Qed.

(** X5. [save_faqs] writes before it rebuilds: whether the rebuild returns
    or raises, the storage holds the new list under the key that [get_faqs]
    reads, the other keys are untouched, and [save_faqs] raises exactly
    when the new list does not index. *)
Theorem save_faqs_writes_first (new_faqs : list FAQItem.t) (w : World) :
  stored_faqs (save_faqs new_faqs w).2 = new_faqs /\
  (forall key, key <> "faqs" ->
               storage (save_faqs new_faqs w).2 !! key = storage w !! key) /\
  (save_faqs new_faqs w).1 =
  (if indexes new_faqs then inr tt else inl ValueError).
Proof.
  destruct (save_faqs_cases new_faqs w) as (vs & Hw & _ & Hcases).
  rewrite Hw. split; [apply stored_faqs_insert|]. split.
  - intros key Hkey. simpl. by rewrite lookup_insert_ne.
  - by destruct Hcases as [(-> & -> & _)|(-> & ->)].
Qed.

End StorageFacts.

(** ** What [search] returns *)

Section SearchResults.
Context {sk : Tfidf}.

(** X6. [search] never returns an entry below the threshold or from
    outside the index: an entry it returns is one of [self.faqs] and comes
    with a score that reaches the threshold; when it returns no entry, the
    score is below the threshold, or it is 0.0 and the index is not
    initialized or has no entries. *)
Theorem search_sound (self : VectorSearch) (query : string) (threshold : float)
    (r : option FAQItem.t) (s : float) :
  search self query threshold = inr (r, s) ->
  match r with
  | Some e => e ∈ faqs self /\ geb s threshold = true /\ initialized self = true
  | None => geb s threshold = false \/
            (s = 0%float /\ (initialized self = false \/ faqs self = []))
  end.
Proof.
  unfold search.
  destruct (initialized self) eqn:Hinit; simpl.
  - destruct (bool_decide (faqs self = [])) eqn:Hnil.
    + intros [= <- <-]. right. apply bool_decide_eq_true in Hnil. auto.
    + destruct (similarities self query) as [x|sims]; simpl; [done|].
      destruct (argmax sims) as [x|k]; simpl; [done|].
      destruct (getitem sims k) as [x|s']; simpl; [done|].
      destruct (geb s' threshold) eqn:Hge.
      * unfold getitem. destruct (faqs self !! k) as [e|] eqn:He; simpl; [|done].
        intros [= <- <-]. split; [by eapply list_elem_of_lookup_2|done].
      * intros [= <- <-]. by left.
  - intros [= <- <-]. right. auto.
Qed.

Lemma search_rebuilt (kb : list FAQItem.t) (m : Model) (query : string)
    (threshold : float) :
  kb <> [] ->
  exists k e,
    argmax (score m query <$> kb) = inr k /\ kb !! k = Some e /\
    search (rebuilt kb m) query threshold =
    inr (if geb (score m query e) threshold then Some e else None, score m query e).
Proof.
  intros Hne.
  destruct (best_match_rebuilt kb m query Hne) as (k & e & Hbest & Hk & He).
  exists k, e. split; [done|]. split; [done|].
  rewrite search_best_match, Hbest by done. simpl.
  destruct (geb _ _); [|done]. unfold getitem. by rewrite He.
Qed.

(** X7. On the index that a rebuild leaves for a knowledge base, the score
    that [search] returns is the score of one of the entries, and when it
    is a number, no entry scores higher. *)
Theorem search_best_score (kb : list FAQItem.t) (m : Model) (query : string)
    (threshold : float) (r : option FAQItem.t) (s : float) :
  kb <> [] ->
  search (rebuilt kb m) query threshold = inr (r, s) ->
  (exists e, e ∈ kb /\ s = score m query e) /\
  (is_nan s = false ->
   forall x, x ∈ kb -> (score m query x <=? s)%float = true).
Proof.
  intros Hne Hsearch.
  destruct (search_rebuilt kb m query threshold Hne) as (k & e & Hk & He & Hs).
  rewrite Hs in Hsearch. injection Hsearch as _ <-.
  split; [exists e; split; [by eapply list_elem_of_lookup_2|done]|].
  intros Hnan x Hx.
  destruct (argmax_spec _ _ Hk) as (y & Hy & _ & Hall).
  rewrite list_lookup_fmap, He in Hy. injection Hy as <-.
  apply list_elem_of_lookup_1 in Hx as [p Hp].
  apply (Hall Hnan p). by rewrite list_lookup_fmap, Hp.
Qed.

(** X8. After a rebuild that returns, [search] does not raise, whatever
    the query and the threshold. *)
Theorem search_after_rebuild (kb : list FAQItem.t) (self self1 : VectorSearch)
    (query : string) (threshold : float) :
  add_faqs kb self = (inr tt, self1) ->
  exists r s, search self1 query threshold = inr (r, s).
Proof.
  intros Hadd. destruct (add_faqs_returns _ _ _ Hadd) as [_ Hself1].
  destruct kb as [|e0 kb].
  - rewrite Hself1. by exists None, 0%float.
  - destruct Hself1 as (m & _ & ->).
    destruct (search_rebuilt (e0 :: kb) m query threshold) as (k & e & _ & _ & ->); [done|].
    eauto.
Qed.

End SearchResults.

(** ** What [search_faq] returns *)

Section AnswerFacts.
Context {sk : Tfidf}.
Variable openai_client : option ChatCompletions.

Lemma visible_faqs_stored (w : World) (e : FAQItem.t) :
  e ∈ visible_faqs w -> e ∈ stored_faqs w.
Proof.
  unfold visible_faqs. destruct (indexes _); [done|]. by intros ?%elem_of_nil.
Qed.

Lemma visible_faqs_cases (w : World) :
  visible_faqs w = stored_faqs w \/ visible_faqs w = [].
Proof. unfold visible_faqs. destruct (indexes _); auto. Qed.

(** The fallback path by cases: it returns one of three responses, none
    with a source, and logs one call when a client is configured. *)
Lemma fallback_cases (kb : list FAQItem.t) (user_question : string)
    (confidence : float) (w : World) :
  exists r,
    fallback openai_client kb user_question confidence w =
    (inr r,
     {| storage := storage w; vector_search := vector_search w;
        openai_calls :=
          match openai_client with
          | None => openai_calls w
          | Some _ => openai_calls w ++ [("gpt-4o-mini", fallback_messages kb user_question)]
          end |}) /\
    QueryResponse.source_faq_id r = None /\
    ((QueryResponse.has_answer r = false /\ QueryResponse.answer r = None /\
      (QueryResponse.confidence r = confidence \/
       (QueryResponse.confidence r = 0.4%float /\ is_Some openai_client))) \/
     (QueryResponse.has_answer r = true /\ is_Some (QueryResponse.answer r) /\
      QueryResponse.confidence r = 0.7%float /\ is_Some openai_client)).
Proof.
  unfold fallback. destruct openai_client as [client|].
  - unfold fallback_try, try_except, chat_completions_create, bind, modify, lift, ret.
    simpl.
    destruct (client _ _) as [x|[|[text|] others]]; simpl;
      try (eexists; split; [reflexivity|]; split; [done|]; left; auto; fail).
    destruct (contains sentinel (lower text));
      eexists; (split; [reflexivity|]); (split; [done|]); [left|right]; simpl; eauto 6.
  - unfold bind, ret. destruct w. eexists. split; [reflexivity|]. split; [done|].
    left. auto.
Qed.

(** [search_faq] by cases on what [get_faqs] hands over. *)
Lemma search_faq_visible (request : QueryRequest.t) (w : World) :
  exists vs,
    faqs vs = stored_faqs w /\
    match visible_faqs w with
    | [] => search_faq openai_client request w =
            (inr QueryResponse.default, with_vector_search w vs)
    | _ :: _ =>
        exists e m,
          e ∈ visible_faqs w /\
          search_faq openai_client request w =
          let s := score m (QueryRequest.question request) e in
          if geb s (QueryRequest.confidence_threshold request)
          then (inr {| QueryResponse.answer := Some (FAQItem.answer e);
                       QueryResponse.confidence := s;
                       QueryResponse.source_faq_id := Some (FAQItem.id e);
                       QueryResponse.has_answer := true |},
                with_vector_search w vs)
          else fallback openai_client (visible_faqs w) (QueryRequest.question request) s
                        (with_vector_search w vs)
    end.
Proof.
  destruct (get_faqs_visible w) as (vs & Hget & Hfaqs & _ & Hfull).
  exists vs. split; [done|].
  destruct (visible_faqs w) as [|e0 kb] eqn:Hvis.
  - unfold search_faq, bind at 1. by rewrite Hget.
  - destruct Hfull as (m & Hfit & ->); [done|].
    destruct (search_rebuilt (e0 :: kb) m (QueryRequest.question request)
                (QueryRequest.confidence_threshold request)) as (k & e & _ & He & Hs); [done|].
    exists e, m. split; [by eapply list_elem_of_lookup_2|].
    unfold search_faq, bind at 1. rewrite Hget.
    unfold bind, on_vector_search, with_vector_search.
    cbn -[search rebuilt fallback score geb]. rewrite Hs. cbv zeta.
    by destruct (geb _ _).
Qed.

(** X9. [search_faq] never raises and never writes to the storage, and it
    calls the client at most once: the log of calls is unchanged, or it has
    one more call, to [gpt-4o-mini], with the system message built from
    the knowledge base and the user's question. *)
Theorem search_faq_never_raises (request : QueryRequest.t) (w : World) :
  (exists r, (search_faq openai_client request w).1 = inr r) /\
  storage (search_faq openai_client request w).2 = storage w /\
  (openai_calls (search_faq openai_client request w).2 = openai_calls w \/
   (is_Some openai_client /\
    openai_calls (search_faq openai_client request w).2 =
    openai_calls w ++
      [("gpt-4o-mini",
        fallback_messages (stored_faqs w) (QueryRequest.question request))])).
Proof.
  destruct (search_faq_visible request w) as (vs & _ & Hcases).
  destruct (visible_faqs w) as [|e0 kb] eqn:Hvis.
  - rewrite Hcases. simpl. eauto.
  - destruct Hcases as (e & m & _ & ->). cbv zeta.
    destruct (geb _ _); [simpl; eauto|].
    destruct (fallback_cases (e0 :: kb) (QueryRequest.question request)
                (score m (QueryRequest.question request) e) (with_vector_search w vs))
      as (r & -> & _). simpl.
    split; [eauto|]. split; [done|].
    destruct openai_client; [|by left]. right. split; [done|].
    destruct (visible_faqs_cases w) as [Heq|Heq]; rewrite Hvis in Heq; [|done].
    by rewrite <- Heq.
Qed.

(** X10. A response of [search_faq] has an answer exactly when
    [has_answer] is set; its source, when it has one, is the identifier of
    a stored entry whose answer is the answer returned, with a confidence
    that reaches the requested threshold and without any call to the
    client; and an answer without a source has confidence 0.7. *)
Theorem search_faq_response (request : QueryRequest.t) (w : World)
    (r : QueryResponse.t) :
  (search_faq openai_client request w).1 = inr r ->
  (QueryResponse.has_answer r = true <-> is_Some (QueryResponse.answer r)) /\
  (forall source, QueryResponse.source_faq_id r = Some source ->
     exists e, e ∈ stored_faqs w /\ FAQItem.id e = source /\
               QueryResponse.answer r = Some (FAQItem.answer e) /\
               geb (QueryResponse.confidence r)
                   (QueryRequest.confidence_threshold request) = true /\
               openai_calls (search_faq openai_client request w).2 = openai_calls w) /\
  (QueryResponse.has_answer r = true -> QueryResponse.source_faq_id r = None ->
   QueryResponse.confidence r = 0.7%float).
Proof.
  destruct (search_faq_visible request w) as (vs & _ & Hcases).
  destruct (visible_faqs w) as [|e0 kb] eqn:Hvis.
  - rewrite Hcases. intros [= <-]. simpl. split; [|done].
    split; [done|]. by intros [? ?].
  - destruct Hcases as (e & m & He & ->). cbv zeta.
    destruct (geb _ _) eqn:Hge.
    + intros [= <-]. simpl. split; [split; eauto|]. split; [|done].
      intros source [= <-]. exists e. rewrite <- Hvis in He.
      split; [by apply visible_faqs_stored|]. done.
    + destruct (fallback_cases (e0 :: kb) (QueryRequest.question request)
                  (score m (QueryRequest.question request) e) (with_vector_search w vs))
        as (r' & -> & Hsource & Hr).
      intros [= <-]. rewrite Hsource. split; [|split; [done|]].
      * destruct Hr as [(-> & -> & _)|(-> & Hans & _)]; split; try done.
      * intros Hhas _. destruct Hr as [(Hno & _)|(_ & _ & Hc & _)]; [congruence|done].
Qed.

End AnswerFacts.

(** ** The endpoints that read and write the knowledge base *)

Section EndpointFacts.
Context {sk : Tfidf}.

Lemma find_index_None (faq_id : string) (l : list FAQItem.t) :
  find_index faq_id l = None <-> faq_id ∉ ids l.
Proof.
  unfold ids. induction l as [|f l IH]; simpl.
  - split; [intros _; apply not_elem_of_nil|done].
  - rewrite not_elem_of_cons.
    destruct (String.eqb_spec (FAQItem.id f) faq_id) as [Hid|Hid].
    + split; [done|]. by intros [? _].
    + destruct (find_index faq_id l) as [i|]; simpl.
      * split; [done|]. intros [_ Hin]. by apply IH in Hin.
      * split; [|done]. intros _. split; [done|]. by apply IH.
Qed.

(** [find_index] gives the first row with the identifier. *)
Lemma find_index_first_row (faq_id : string) (l : list FAQItem.t) (i : nat) :
  find_index faq_id l = Some i ->
  exists f, l !! i = Some f /\ FAQItem.id f = faq_id /\
            forall j g, j < i -> l !! j = Some g -> FAQItem.id g <> faq_id.
Proof.
  revert i. induction l as [|f l IH]; intros i; simpl; [done|].
  destruct (String.eqb_spec (FAQItem.id f) faq_id) as [Hid|Hid].
  - intros [= <-]. exists f. repeat split; [done|]. intros j g Hj. lia.
  - destruct (find_index faq_id l) as [i'|]; simpl; [|done].
    intros [= <-]. destruct (IH i' eq_refl) as (f' & Hf' & Hid' & Hfirst).
    exists f'. repeat split; [done..|].
    intros [|j] g Hj; simpl; [by intros [= <-]|]. apply Hfirst. lia.
Qed.

Lemma find_faq_find_index (faq_id : string) (l : list FAQItem.t) :
  find_faq faq_id l = find_index faq_id l ≫= (l !!.).
Proof.
  induction l as [|f l IH]; simpl; [done|].
  destruct (String.eqb (FAQItem.id f) faq_id); [done|].
  rewrite IH. by destruct (find_index faq_id l).
Qed.

Lemma find_index_insert (faq_id : string) (l : list FAQItem.t) (i : nat)
    (updated : FAQItem.t) :
  find_index faq_id l = Some i -> FAQItem.id updated = faq_id ->
  find_index faq_id (<[i := updated]> l) = Some i.
Proof.
  revert i. induction l as [|f l IH]; intros i; simpl; [done|].
  destruct (String.eqb_spec (FAQItem.id f) faq_id) as [Hid|Hid].
  - intros [= <-] Hupd. simpl. by rewrite Hupd, String.eqb_refl.
  - destruct (find_index faq_id l) as [i'|] eqn:Hfind; simpl; [|done].
    intros [= <-] Hupd. simpl.
    destruct (String.eqb_spec (FAQItem.id f) faq_id); [done|].
    by rewrite (IH i' eq_refl Hupd).
Qed.

Lemma find_index_app_fresh (l : list FAQItem.t) (new_faq : FAQItem.t) :
  FAQItem.id new_faq ∉ ids l ->
  find_index (FAQItem.id new_faq) (l ++ [new_faq]) = Some (length l).
Proof.
  unfold ids. induction l as [|f l IH]; simpl.
  - intros _. by rewrite String.eqb_refl.
  - intros [Hne Hin]%not_elem_of_cons.
    destruct (String.eqb_spec (FAQItem.id f) (FAQItem.id new_faq)); [done|].
    by rewrite (IH Hin).
Qed.

Lemma find_index_delete (faq_id : string) (l : list FAQItem.t) (i : nat) :
  NoDup (ids l) -> find_index faq_id l = Some i ->
  faq_id ∉ ids (delete i l).
Proof.
  unfold ids. revert i. induction l as [|f l IH]; intros i; simpl; [done|].
  intros [Hnotin Hnd]%NoDup_cons.
  destruct (String.eqb_spec (FAQItem.id f) faq_id) as [Hid|Hid].
  - intros [= <-]. simpl. by rewrite <- Hid.
  - destruct (find_index faq_id l) as [i'|] eqn:Hfind; simpl; [|done].
    intros [= <-]. simpl. apply not_elem_of_cons. split; [done|]. by apply IH.
Qed.

(** A write: [save_faqs l] and then return [a], after any [get_faqs]. *)
Lemma save_faqs_ret {A} (l : list FAQItem.t) (a : A) (w : World) :
  exists vs,
    (save_faqs l ;;; ret a) w =
    (if indexes l then inr a else inl ValueError,
     {| storage := <["faqs" := l]> (storage w);
        vector_search := vs; openai_calls := openai_calls w |}) /\
    faqs vs = l.
Proof.
  destruct (save_faqs_cases l w) as (vs & Hw & Hfaqs & Hcases).
  exists vs. split; [|done]. unfold bind, ret.
  destruct (save_faqs l w) as [r w']. simpl in *. subst w'.
  by destruct Hcases as [(-> & -> & _)|(-> & ->)].
Qed.

Lemma get_faq_eval (faq_id : string) (w : World) :
  (get_faq faq_id w).1 =
  match find_faq faq_id (visible_faqs w) with
  | Some f => inr {| faq := f |}
  | None => inl (HTTPException 404 "FAQ not found")
  end /\
  storage (get_faq faq_id w).2 = storage w /\
  faqs (vector_search (get_faq faq_id w).2) = stored_faqs w.
Proof.
  destruct (get_faqs_visible w) as (vs & Hget & Hfaqs & _).
  unfold get_faq, bind. rewrite Hget.
  by destruct (find_faq faq_id (visible_faqs w)).
Qed.

Lemma create_faq_eval (new_id : string) (now_created now_updated : datetime)
    (request : CreateFAQRequest.t) (w : World) :
  let new_faq :=
    {| FAQItem.id := new_id;
       FAQItem.question := CreateFAQRequest.question request;
       FAQItem.answer := CreateFAQRequest.answer request;
       FAQItem.tags := tags_or (CreateFAQRequest.tags request) [];
       FAQItem.created_at := now_created;
       FAQItem.updated_at := now_updated |} in
  exists vs,
    create_faq new_id now_created now_updated request w =
    (if indexes (visible_faqs w ++ [new_faq]) then inr {| faq := new_faq |}
     else inl ValueError,
     {| storage := <["faqs" := visible_faqs w ++ [new_faq]]> (storage w);
        vector_search := vs; openai_calls := openai_calls w |}) /\
    faqs vs = visible_faqs w ++ [new_faq].
Proof.
  intros new_faq.
  destruct (get_faqs_visible w) as (vs0 & Hget & _).
  unfold create_faq, bind at 1. rewrite Hget. fold new_faq.
  apply (save_faqs_ret (visible_faqs w ++ [new_faq]) {| faq := new_faq |}
           (with_vector_search w vs0)).
Qed.

Lemma update_faq_eval (now : datetime) (faq_id : string)
    (request : UpdateFAQRequest.t) (w : World) :
  match find_index faq_id (visible_faqs w) with
  | None =>
      (update_faq now faq_id request w).1 = inl (HTTPException 404 "FAQ not found") /\
      storage (update_faq now faq_id request w).2 = storage w /\
      faqs (vector_search (update_faq now faq_id request w).2) = stored_faqs w
  | Some i =>
      exists old vs,
        visible_faqs w !! i = Some old /\
        let updated :=
          {| FAQItem.id := faq_id;
             FAQItem.question := UpdateFAQRequest.question request;
             FAQItem.answer := UpdateFAQRequest.answer request;
             FAQItem.tags := tags_or (UpdateFAQRequest.tags request) (FAQItem.tags old);
             FAQItem.created_at := FAQItem.created_at old;
             FAQItem.updated_at := now |} in
        update_faq now faq_id request w =
        (if indexes (<[i := updated]> (visible_faqs w)) then inr {| faq := updated |}
         else inl ValueError,
         {| storage := <["faqs" := <[i := updated]> (visible_faqs w)]> (storage w);
            vector_search := vs; openai_calls := openai_calls w |}) /\
        faqs vs = <[i := updated]> (visible_faqs w)
  end.
Proof.
  destruct (get_faqs_visible w) as (vs0 & Hget & Hfaqs & _).
  destruct (find_index faq_id (visible_faqs w)) as [i|] eqn:Hfind.
  - destruct (find_index_first_row _ _ _ Hfind) as (old & Hold & _).
    set (updated := FAQItem.Build faq_id (UpdateFAQRequest.question request)
                      (UpdateFAQRequest.answer request) (FAQItem.created_at old) now
                      (tags_or (UpdateFAQRequest.tags request) (FAQItem.tags old))).
    destruct (save_faqs_ret (<[i := updated]> (visible_faqs w)) {| faq := updated |}
                (with_vector_search w vs0)) as (vs & Hsave & Hvs).
    exists old, vs. split; [done|]. cbv zeta. fold updated. split; [|done].
    unfold update_faq, bind at 1. rewrite Hget, Hfind.
    unfold bind at 1, lift, getitem. rewrite Hold. exact Hsave.
  - unfold update_faq, bind. by rewrite Hget, Hfind.
Qed.

Lemma delete_faq_eval (faq_id : string) (w : World) :
  match find_index faq_id (visible_faqs w) with
  | None =>
      (delete_faq faq_id w).1 = inl (HTTPException 404 "FAQ not found") /\
      storage (delete_faq faq_id w).2 = storage w /\
      faqs (vector_search (delete_faq faq_id w).2) = stored_faqs w
  | Some i =>
      exists vs,
        delete_faq faq_id w =
        (if indexes (delete i (visible_faqs w))
         then inr {| message := "FAQ deleted successfully" |}
         else inl ValueError,
         {| storage := <["faqs" := delete i (visible_faqs w)]> (storage w);
            vector_search := vs; openai_calls := openai_calls w |}) /\
        faqs vs = delete i (visible_faqs w)
  end.
Proof.
  destruct (get_faqs_visible w) as (vs0 & Hget & Hfaqs & _).
  destruct (find_index faq_id (visible_faqs w)) as [i|] eqn:Hfind.
  - destruct (find_index_first_row _ _ _ Hfind) as (old & Hold & _).
    destruct (save_faqs_ret (delete i (visible_faqs w))
                {| message := "FAQ deleted successfully" |}
                (with_vector_search w vs0)) as (vs & Hsave & Hvs).
    exists vs. split; [|done].
    unfold delete_faq, bind at 1. rewrite Hget, Hfind.
    unfold bind at 1, lift, getitem. rewrite Hold. exact Hsave.
  - unfold delete_faq, bind. by rewrite Hget, Hfind.
Qed.

Lemma stored_faqs_storage (w w' : World) :
  storage w' = storage w -> stored_faqs w' = stored_faqs w.
Proof. unfold stored_faqs. by intros ->. Qed.

Lemma visible_faqs_written (l : list FAQItem.t) (w : World) (vs : VectorSearch)
    (calls : list (string * list Message)) :
  indexes l = true ->
  visible_faqs {| storage := <["faqs" := l]> (storage w);
                  vector_search := vs; openai_calls := calls |} = l.
Proof. intros Hidx. unfold visible_faqs. by rewrite stored_faqs_insert, Hidx. Qed.

Lemma visible_faqs_NoDup (w : World) :
  NoDup (ids (stored_faqs w)) -> NoDup (ids (visible_faqs w)).
Proof.
  unfold visible_faqs. destruct (indexes _); [done|]. intros _. apply NoDup_nil_2.
Qed.

Lemma visible_faqs_ids (w : World) (faq_id : string) :
  faq_id ∉ ids (stored_faqs w) -> faq_id ∉ ids (visible_faqs w).
Proof.
  unfold visible_faqs. destruct (indexes _); [done|]. intros _. apply not_elem_of_nil.
Qed.

(** X11. [create_faq] stores the list that [get_faqs] returned with the
    new entry at its end: the given identifier, the question and answer of
    the request, its tags or none, and the two clock readings. It returns
    that entry, unless the new list does not index: then it raises after
    the write. When the stored list indexes, that list is the stored one. *)
Theorem create_faq_appends (new_id : string) (now_created now_updated : datetime)
    (request : CreateFAQRequest.t) (w : World) :
  let new_faq :=
    {| FAQItem.id := new_id;
       FAQItem.question := CreateFAQRequest.question request;
       FAQItem.answer := CreateFAQRequest.answer request;
       FAQItem.tags := default [] (CreateFAQRequest.tags request);
       FAQItem.created_at := now_created;
       FAQItem.updated_at := now_updated |} in
  let after := create_faq new_id now_created now_updated request w in
  stored_faqs after.2 = visible_faqs w ++ [new_faq] /\
  after.1 = (if indexes (visible_faqs w ++ [new_faq]) then inr {| faq := new_faq |}
             else inl ValueError) /\
  (indexes (stored_faqs w) = true -> stored_faqs after.2 = stored_faqs w ++ [new_faq]).
Proof.
  intros new_faq after.
  destruct (create_faq_eval new_id now_created now_updated request w) as (vs & Heval & _).
  assert (Htags : tags_or (CreateFAQRequest.tags request) [] =
                  default [] (CreateFAQRequest.tags request)).
  { by destruct (CreateFAQRequest.tags request) as [[|t l]|]. }
  cbv zeta in Heval. rewrite Htags in Heval. fold new_faq in Heval.
  subst after. rewrite Heval. simpl.
  split; [apply stored_faqs_insert|]. split; [done|].
  intros Hidx. rewrite stored_faqs_insert. unfold visible_faqs. by rewrite Hidx.
Qed.

(** X12. When the stored list is not empty and its rebuild raises,
    [get_faqs] hands [create_faq] the empty list, and [create_faq] writes a
    list that holds the new entry alone: the entries stored before are no
    longer in the storage. *)
Theorem create_faq_drops_unindexed (new_id : string) (now_created now_updated : datetime)
    (request : CreateFAQRequest.t) (w : World) :
  indexes (stored_faqs w) = false ->
  stored_faqs w <> [] /\
  exists new_faq,
    stored_faqs (create_faq new_id now_created now_updated request w).2 = [new_faq] /\
    FAQItem.id new_faq = new_id.
Proof.
  intros Hidx. split; [by destruct (indexes_false_fit _ Hidx)|].
  destruct (create_faq_eval new_id now_created now_updated request w) as (vs & Heval & _).
  cbv zeta in Heval. rewrite Heval. simpl. rewrite stored_faqs_insert.
  unfold visible_faqs. rewrite Hidx. simpl. eauto.
Qed.

(** X13. With an identifier that no entry handed over by [get_faqs] has,
    [get_faq], [update_faq] and [delete_faq] raise the 404 "FAQ not found"
    and leave the storage as it is. *)
Theorem unknown_id_not_found (faq_id : string) (now : datetime)
    (request : UpdateFAQRequest.t) (w : World) :
  faq_id ∉ ids (visible_faqs w) ->
  let not_found := HTTPException 404 "FAQ not found" in
  ((get_faq faq_id w).1 = inl not_found /\
   storage (get_faq faq_id w).2 = storage w) /\
  ((update_faq now faq_id request w).1 = inl not_found /\
   storage (update_faq now faq_id request w).2 = storage w) /\
  ((delete_faq faq_id w).1 = inl not_found /\
   storage (delete_faq faq_id w).2 = storage w).
Proof.
  intros Hid%find_index_None not_found.
  pose proof (get_faq_eval faq_id w) as (Hget & Hstore & _).
  pose proof (update_faq_eval now faq_id request w) as Hupdate.
  pose proof (delete_faq_eval faq_id w) as Hdelete.
  rewrite find_faq_find_index in Hget. rewrite Hid in Hget, Hupdate, Hdelete.
  destruct Hupdate as (? & ? & _), Hdelete as (? & ? & _). done.
Qed.

(** X14. [delete_faq] removes exactly the first entry with the identifier:
    the stored list is the list handed over by [get_faqs] without that
    row, one entry shorter, with the rows before it unchanged and the rows
    after it moved up by one. It returns its message, unless the remaining
    list does not index: then it raises after the write. *)
Theorem delete_faq_removes (faq_id : string) (w : World) (i : nat) :
  find_index faq_id (visible_faqs w) = Some i ->
  let after := delete_faq faq_id w in
  stored_faqs after.2 = delete i (visible_faqs w) /\
  S (length (stored_faqs after.2)) = length (visible_faqs w) /\
  (forall j, j < i -> stored_faqs after.2 !! j = visible_faqs w !! j) /\
  (forall j, i <= j -> stored_faqs after.2 !! j = visible_faqs w !! S j) /\
  after.1 = (if indexes (delete i (visible_faqs w))
             then inr {| message := "FAQ deleted successfully" |}
             else inl ValueError).
Proof.
  intros Hfind after.
  pose proof (delete_faq_eval faq_id w) as Heval. rewrite Hfind in Heval.
  destruct Heval as (vs & Heval & _). subst after. rewrite Heval. simpl.
  rewrite stored_faqs_insert.
  destruct (find_index_first_row _ _ _ Hfind) as (f & Hf & _).
  apply lookup_lt_Some in Hf.
  split; [done|]. split; [rewrite length_delete by eauto using lookup_lt_is_Some_2; lia|].
  split; [intros j Hj; by apply list_lookup_delete_lt|].
  split; [intros j Hj; by apply list_lookup_delete_ge|done].
Qed.

(** X15. An entry that [get_faq] returns has the requested identifier, is
    a stored entry, and is the first with that identifier in the list
    handed over by [get_faqs]; [get_faq] writes nothing. *)
Theorem get_faq_found (faq_id : string) (w : World) (response : FAQResponse) :
  (get_faq faq_id w).1 = inr response ->
  FAQItem.id (faq response) = faq_id /\
  faq response ∈ stored_faqs w /\
  (exists i, visible_faqs w !! i = Some (faq response) /\
             forall j g, j < i -> visible_faqs w !! j = Some g ->
                         FAQItem.id g <> faq_id) /\
  storage (get_faq faq_id w).2 = storage w.
Proof.
  pose proof (get_faq_eval faq_id w) as (Hget & Hstore & _).
  rewrite Hget, find_faq_find_index.
  destruct (find_index faq_id (visible_faqs w)) as [i|] eqn:Hfind; simpl; [|done].
  destruct (find_index_first_row _ _ _ Hfind) as (f & Hf & Hid & Hfirst).
  rewrite Hf. intros [= <-]. simpl. split; [done|]. split.
  - apply visible_faqs_stored. by eapply list_elem_of_lookup_2.
  - split; [|done]. eauto.
Qed.

Lemma get_faq_written (faq_id : string) (l : list FAQItem.t) (w : World)
    (vs : VectorSearch) (calls : list (string * list Message)) :
  indexes l = true ->
  (get_faq faq_id {| storage := <["faqs" := l]> (storage w);
                     vector_search := vs; openai_calls := calls |}).1 =
  match find_index faq_id l ≫= (l !!.) with
  | Some f => inr {| faq := f |}
  | None => inl (HTTPException 404 "FAQ not found")
  end.
Proof.
  intros Hidx. destruct (get_faq_eval faq_id
    {| storage := <["faqs" := l]> (storage w); vector_search := vs;
       openai_calls := calls |}) as (-> & _).
  by rewrite (visible_faqs_written l w vs calls Hidx), find_faq_find_index.
Qed.

(** X16. After an [update_faq] that returns, [get_faq] with the same
    identifier returns the entry that [update_faq] returned. *)
Theorem update_then_get_faq (now : datetime) (faq_id : string)
    (request : UpdateFAQRequest.t) (w : World) (response : FAQResponse) :
  (update_faq now faq_id request w).1 = inr response ->
  (get_faq faq_id (update_faq now faq_id request w).2).1 = inr response.
Proof.
  pose proof (update_faq_eval now faq_id request w) as Heval.
  destruct (find_index faq_id (visible_faqs w)) as [i|] eqn:Hfind.
  - destruct Heval as (old & vs & Hold & Heval & _). cbv zeta in Heval.
    rewrite Heval. simpl.
    destruct (indexes _) eqn:Hidx; [|done]. intros [= <-].
    rewrite get_faq_written by done.
    rewrite (find_index_insert faq_id (visible_faqs w) i _ Hfind) by done. simpl.
    rewrite list_lookup_insert_eq by (by eapply lookup_lt_Some). done.
  - destruct Heval as (-> & _). done.
Qed.

(** X17. After a [create_faq] that returns, with an identifier that no
    stored entry has, [get_faq] with that identifier returns the entry
    that [create_faq] returned. *)
Theorem create_then_get_faq (new_id : string) (now_created now_updated : datetime)
    (request : CreateFAQRequest.t) (w : World) (response : FAQResponse) :
  new_id ∉ ids (stored_faqs w) ->
  (create_faq new_id now_created now_updated request w).1 = inr response ->
  (get_faq new_id (create_faq new_id now_created now_updated request w).2).1 =
  inr response.
Proof.
  intros Hfresh%visible_faqs_ids.
  destruct (create_faq_eval new_id now_created now_updated request w) as (vs & Heval & _).
  cbv zeta in Heval. rewrite Heval. simpl.
  destruct (indexes _) eqn:Hidx; [|done]. intros [= <-].
  rewrite get_faq_written by done.
  match goal with |- context [find_index new_id (visible_faqs w ++ [?n])] =>
    pose proof (find_index_app_fresh (visible_faqs w) n Hfresh) as Hlast
  end.
  simpl in Hlast. rewrite Hlast. simpl. by rewrite list_lookup_middle.
Qed.

(** X18. When the stored identifiers are distinct, after a [delete_faq]
    that returns, [get_faq] with the same identifier raises the 404. *)
Theorem delete_then_get_faq (faq_id : string) (w : World) (response : DeleteResponse) :
  NoDup (ids (stored_faqs w)) ->
  (delete_faq faq_id w).1 = inr response ->
  (get_faq faq_id (delete_faq faq_id w).2).1 = inl (HTTPException 404 "FAQ not found").
Proof.
  intros Hnd%visible_faqs_NoDup.
  pose proof (delete_faq_eval faq_id w) as Heval.
  destruct (find_index faq_id (visible_faqs w)) as [i|] eqn:Hfind.
  - destruct Heval as (vs & Heval & _). rewrite Heval. simpl.
    destruct (indexes _) eqn:Hidx; [|done]. intros _.
    rewrite get_faq_written by done.
    apply (find_index_delete _ _ _ Hnd) in Hfind.
    apply find_index_None in Hfind. by rewrite Hfind.
  - destruct Heval as (-> & _). done.
Qed.

(** X19. After a [create_faq] that returns, [get_all_faqs] lists the
    entries that [get_faqs] handed to [create_faq], in their order,
    followed by the entry that [create_faq] returned. *)
Theorem create_then_get_all_faqs (new_id : string) (now_created now_updated : datetime)
    (request : CreateFAQRequest.t) (w : World) (response : FAQResponse) :
  (create_faq new_id now_created now_updated request w).1 = inr response ->
  (get_all_faqs (create_faq new_id now_created now_updated request w).2).1 =
  inr {| FAQListResponse.faqs := visible_faqs w ++ [faq response] |}.
Proof.
  destruct (create_faq_eval new_id now_created now_updated request w) as (vs & Heval & _).
  cbv zeta in Heval. rewrite Heval. simpl.
  destruct (indexes _) eqn:Hidx; [|done]. intros [= <-]. simpl.
  unfold get_all_faqs, bind.
  match goal with |- context [get_faqs ?w1] =>
    destruct (get_faqs_visible w1) as (vs1 & -> & _);
    rewrite (visible_faqs_written _ w vs (openai_calls w) Hidx)
  end.
  done.
Qed.

(** X20. The writes keep the stored identifiers distinct: when they are,
    they still are after [update_faq] and after [delete_faq], whatever
    these return, and after [create_faq] with an identifier that no stored
    entry has. *)
Theorem writes_keep_ids_distinct (w : World) (new_id faq_id : string)
    (now_created now_updated now : datetime)
    (create_request : CreateFAQRequest.t) (update_request : UpdateFAQRequest.t) :
  NoDup (ids (stored_faqs w)) ->
  (new_id ∉ ids (stored_faqs w) ->
   NoDup (ids (stored_faqs
                 (create_faq new_id now_created now_updated create_request w).2))) /\
  NoDup (ids (stored_faqs (update_faq now faq_id update_request w).2)) /\
  NoDup (ids (stored_faqs (delete_faq faq_id w).2)).
Proof.
  intros Hstored. pose proof (visible_faqs_NoDup w Hstored) as Hnd.
  split; [|split].
  - intros Hfresh%visible_faqs_ids.
    destruct (create_faq_eval new_id now_created now_updated create_request w)
      as (vs & -> & _). simpl. rewrite stored_faqs_insert.
    unfold ids in *. rewrite fmap_app. simpl.
    apply NoDup_app. split; [done|]. split; [|apply NoDup_singleton].
    intros x Hx ->%list_elem_of_singleton. done.
  - pose proof (update_faq_eval now faq_id update_request w) as Heval.
    destruct (find_index faq_id (visible_faqs w)) as [i|] eqn:Hfind.
    + destruct Heval as (old & vs & Hold & -> & _). simpl. rewrite stored_faqs_insert.
      destruct (find_index_first_row _ _ _ Hfind) as (f & Hf & Hid & _).
      unfold ids in *. rewrite list_fmap_insert. simpl.
      rewrite list_insert_id; [done|]. by rewrite list_lookup_fmap, Hf, <- Hid.
    + destruct Heval as (_ & Hstore & _). by rewrite (stored_faqs_storage _ _ Hstore).
  - pose proof (delete_faq_eval faq_id w) as Heval.
    destruct (find_index faq_id (visible_faqs w)) as [i|] eqn:Hfind.
    + destruct Heval as (vs & -> & _). simpl. rewrite stored_faqs_insert.
      unfold ids in *. rewrite list_fmap_delete.
      eapply sublist_NoDup; [done|apply sublist_delete].
    + destruct Heval as (_ & Hstore & _). by rewrite (stored_faqs_storage _ _ Hstore).
Qed.

End EndpointFacts.

(** ** The index and the storage across the endpoints *)

Section WorldFacts.
Context {sk : Tfidf}.
Variable openai_client : option ChatCompletions.

(** A source named by [search_faq] is the identifier of a stored entry. *)
Lemma search_faq_source (request : QueryRequest.t) (w : World)
    (r : QueryResponse.t) (source : string) :
  (search_faq openai_client request w).1 = inr r ->
  QueryResponse.source_faq_id r = Some source ->
  source ∈ ids (stored_faqs w).
Proof.
  destruct (search_faq_visible openai_client request w) as (vs & _ & Hcases).
  destruct (visible_faqs w) as [|e0 kb] eqn:Hvis.
  - rewrite Hcases. by intros [= <-].
  - destruct Hcases as (e & m & He & ->). cbv zeta.
    destruct (geb _ _).
    + intros [= <-] [= <-]. rewrite <- Hvis in He.
      apply list_elem_of_fmap_2. by apply visible_faqs_stored.
    + destruct (fallback_cases openai_client (e0 :: kb) (QueryRequest.question request)
                  (score m (QueryRequest.question request) e) (with_vector_search w vs))
        as (r' & -> & Hsource & _).
      intros [= <-]. by rewrite Hsource.
Qed.

(** X21. When the stored identifiers are distinct, an entry that
    [delete_faq] has deleted is never again the source of an answer: after
    a [delete_faq] that returns, no response of [search_faq] names the
    deleted identifier. *)
Theorem deleted_entry_never_answers (faq_id : string) (w : World)
    (deleted : DeleteResponse) (request : QueryRequest.t) (r : QueryResponse.t) :
  NoDup (ids (stored_faqs w)) ->
  (delete_faq faq_id w).1 = inr deleted ->
  (search_faq openai_client request (delete_faq faq_id w).2).1 = inr r ->
  QueryResponse.source_faq_id r <> Some faq_id.
Proof.
  intros Hnd%visible_faqs_NoDup Hdeleted Hsearch Hsource.
  apply (search_faq_source _ _ _ _ Hsearch) in Hsource.
  pose proof (delete_faq_eval faq_id w) as Heval.
  destruct (find_index faq_id (visible_faqs w)) as [i|] eqn:Hfind.
  - destruct Heval as (vs & Heval & _). rewrite Heval in Hsource. simpl in Hsource.
    rewrite stored_faqs_insert in Hsource.
    by apply (find_index_delete _ _ _ Hnd Hfind).
  - destruct Heval as (Heval & _). congruence.
Qed.

(** X22. Every endpoint leaves in [vector_search.faqs] the list that the
    storage holds when it ends, whether it returns or raises. *)
Theorem index_faqs_follow_storage (w : World) (new_id faq_id : string)
    (now_created now_updated now : datetime)
    (create_request : CreateFAQRequest.t) (update_request : UpdateFAQRequest.t)
    (query : QueryRequest.t) :
  let synced (w' : World) := faqs (vector_search w') = stored_faqs w' in
  synced (get_all_faqs w).2 /\
  synced (create_faq new_id now_created now_updated create_request w).2 /\
  synced (get_faq faq_id w).2 /\
  synced (update_faq now faq_id update_request w).2 /\
  synced (delete_faq faq_id w).2 /\
  synced (search_faq openai_client query w).2.
Proof.
  intros synced. subst synced. cbv beta.
  repeat split.
  - unfold get_all_faqs, bind.
    destruct (get_faqs_visible w) as (vs & -> & Hfaqs & _). done.
  - destruct (create_faq_eval new_id now_created now_updated create_request w)
      as (vs & -> & Hfaqs). simpl. by rewrite stored_faqs_insert.
  - destruct (get_faq_eval faq_id w) as (_ & Hstore & Hfaqs).
    by rewrite (stored_faqs_storage _ _ Hstore).
  - pose proof (update_faq_eval now faq_id update_request w) as Heval.
    destruct (find_index faq_id (visible_faqs w)) as [i|].
    + destruct Heval as (old & vs & _ & -> & Hfaqs). simpl. by rewrite stored_faqs_insert.
    + destruct Heval as (_ & Hstore & Hfaqs). by rewrite (stored_faqs_storage _ _ Hstore).
  - pose proof (delete_faq_eval faq_id w) as Heval.
    destruct (find_index faq_id (visible_faqs w)) as [i|].
    + destruct Heval as (vs & -> & Hfaqs). simpl. by rewrite stored_faqs_insert.
    + destruct Heval as (_ & Hstore & Hfaqs). by rewrite (stored_faqs_storage _ _ Hstore).
  - destruct (search_faq_visible openai_client query w) as (vs & Hfaqs & Hcases).
    destruct (visible_faqs w) as [|e0 kb] eqn:Hvis.
    + by rewrite Hcases.
    + destruct Hcases as (e & m & _ & ->). cbv zeta.
      destruct (geb _ _); [done|].
      destruct (fallback_cases openai_client (e0 :: kb) (QueryRequest.question query)
                  (score m (QueryRequest.question query) e) (with_vector_search w vs))
        as (r' & -> & _). done.
Qed.

End WorldFacts.

(** ** The context of the fallback call *)

Lemma string_app_assoc (a b c : string) : (a +:+ b) +:+ c = a +:+ b +:+ c.
Proof.
  induction a as [|x a IH]; [done|].
  change (String x ((a +:+ b) +:+ c) = String x (a +:+ b +:+ c)). by f_equal.
Qed.

Lemma string_app_empty_r (a : string) : a +:+ "" = a.
Proof.
  induction a as [|x a IH]; [done|].
  change (String x (a +:+ "") = String x a). by f_equal.
Qed.

Lemma join_holds (sep : string) (parts : list string) (x : string) :
  x ∈ parts -> exists a b, join sep parts = a +:+ x +:+ b.
Proof.
  induction parts as [|y parts IH]; [by intros ?%elem_of_nil|].
  intros [->|Hin]%elem_of_cons.
  - destruct parts as [|z parts]; simpl.
    + exists "", "". change (y = y +:+ ""). by rewrite string_app_empty_r.
    + by exists "", (sep +:+ join sep (z :: parts)).
  - destruct (IH Hin) as (a & b & Hjoin).
    destruct parts as [|z parts]; [by apply elem_of_nil in Hin|].
    change (join sep (y :: z :: parts)) with (y +:+ sep +:+ join sep (z :: parts)).
    rewrite Hjoin. exists (y +:+ sep +:+ a), b.
    by rewrite !string_app_assoc.
Qed.

(** X23. The system message of the fallback call holds every entry of the
    knowledge base it is given, as the block "Question: ...", newline,
    "Answer: ...", and the user message is the question, unchanged. *)
Theorem fallback_messages_hold_entries (kb : list FAQItem.t) (user_question : string)
    (f : FAQItem.t) :
  f ∈ kb ->
  exists system_message,
    fallback_messages kb user_question =
    [system_message; {| role := "user"; content := user_question |}] /\
    role system_message = "system" /\
    contains ("Question: " +:+ FAQItem.question f +:+ newline
              +:+ "Answer: " +:+ FAQItem.answer f)
             (content system_message) = true.
Proof.
  intros Hf.
  exists {| role := "system"; content := system_prompt +:+ faq_context kb |}.
  split; [done|]. split; [done|]. cbn [content]. unfold faq_context.
  destruct (join_holds (newline +:+ newline)
              ((fun f => "Question: " +:+ FAQItem.question f +:+ newline
                         +:+ "Answer: " +:+ FAQItem.answer f) <$> kb)
              ("Question: " +:+ FAQItem.question f +:+ newline
               +:+ "Answer: " +:+ FAQItem.answer f)) as (a & b & ->).
  { by apply (list_elem_of_fmap_2 (fun f => "Question: " +:+ FAQItem.question f +:+ newline
                                           +:+ "Answer: " +:+ FAQItem.answer f)). }
  rewrite <- (string_app_assoc system_prompt a). apply contains_app.
Qed.

(** ** The properties on the example knowledge bases *)

Lemma save_then_get_faqs_witness :
  get_faqs (sk := sklearn_unit) (save_faqs [faq_password] empty_world).2 =
  (inr [faq_password], (save_faqs [faq_password] empty_world).2).
Proof.
  apply (save_then_get_faqs (sk := sklearn_unit) [faq_password] empty_world).
  vm_compute. reflexivity.
Defined.

Lemma search_sound_witness :
  faq_password ∈ faqs (rebuilt (sk := sklearn_unit) [faq_password] (model_of [faq_password])) /\
  geb 0.71713716560063623 0.5 = true /\
  initialized (rebuilt (sk := sklearn_unit) [faq_password] (model_of [faq_password])) = true.
Proof.
  apply (search_sound (sk := sklearn_unit)
           (rebuilt [faq_password] (model_of [faq_password]))
           "How do I reset my password?" 0.5 (Some faq_password) 0.71713716560063623).
  vm_compute. reflexivity.
Defined.

Lemma search_best_score_witness :
  (exists e, e ∈ [faq_password] /\
             0.2672612419124244%float =
             score (sk := sklearn_unit) (model_of [faq_password])
                   "What's the weather today?" e) /\
  (is_nan 0.2672612419124244 = false ->
   forall x, x ∈ [faq_password] ->
     (score (sk := sklearn_unit) (model_of [faq_password])
            "What's the weather today?" x <=? 0.2672612419124244)%float = true).
Proof.
  apply (search_best_score (sk := sklearn_unit) [faq_password] (model_of [faq_password])
           "What's the weather today?" 0.5 None 0.2672612419124244).
  - discriminate.
  - vm_compute. reflexivity.
Defined.

Lemma search_after_rebuild_witness :
  exists r s,
    search (sk := sklearn_unit) (rebuilt [faq_password] (model_of [faq_password]))
           "What's the weather today?" 0.5 = inr (r, s).
Proof.
  apply (search_after_rebuild (sk := sklearn_unit) [faq_password] VectorSearch_init).
  apply add_faqs_rebuilt; [discriminate | vm_compute; reflexivity].
Defined.

Lemma search_faq_response_witness :
  exists e, e ∈ stored_faqs (world_of [faq_bare]) /\ FAQItem.id e = "faq-3" /\
            Some "?" = Some (FAQItem.answer e).
Proof.
  destruct (search_faq_response (sk := sklearn_unit) None
              {| QueryRequest.question := "password";
                 QueryRequest.confidence_threshold := 0.5 |}
              (world_of [faq_bare])
              {| QueryResponse.answer := Some "?";
                 QueryResponse.confidence := 1;
                 QueryResponse.source_faq_id := Some "faq-3";
                 QueryResponse.has_answer := true |})
    as (_ & Hsource & _).
  - vm_compute. reflexivity.
  - destruct (Hsource "faq-3" eq_refl) as (e & He & Hid & Hanswer & _).
    exists e. split; [exact He|]. split; [exact Hid|exact Hanswer].
Defined.

Lemma create_faq_drops_unindexed_witness :
  stored_faqs (world_of [faq_marks]) <> [] /\
  exists new_faq,
    stored_faqs (create_faq (sk := sklearn_unit) "faq-7" 1700003000%Z 1700003001%Z
                   password_create (world_of [faq_marks])).2 = [new_faq] /\
    FAQItem.id new_faq = "faq-7".
Proof.
  apply (create_faq_drops_unindexed (sk := sklearn_unit) "faq-7" 1700003000%Z 1700003001%Z
           password_create (world_of [faq_marks])).
  vm_compute. reflexivity.
Defined.

Lemma unknown_id_not_found_witness :
  (get_faq (sk := sklearn_unit) "faq-9" (world_of [faq_password])).1 =
  inl (HTTPException 404 "FAQ not found") /\
  (update_faq (sk := sklearn_unit) 1700009999%Z "faq-9" password_update
     (world_of [faq_password])).1 = inl (HTTPException 404 "FAQ not found") /\
  (delete_faq (sk := sklearn_unit) "faq-9" (world_of [faq_password])).1 =
  inl (HTTPException 404 "FAQ not found").
Proof.
  destruct (unknown_id_not_found (sk := sklearn_unit) "faq-9" 1700009999%Z password_update
              (world_of [faq_password])) as ((Hget & _) & (Hupdate & _) & (Hdelete & _)).
  - assert (Hids : ids (visible_faqs (world_of [faq_password])) = ["faq-1"])
      by (vm_compute; reflexivity).
    rewrite Hids. intros Hin. apply list_elem_of_singleton in Hin. discriminate.
  - split; [exact Hget|]. split; [exact Hupdate|exact Hdelete].
Defined.

Lemma delete_faq_removes_witness :
  stored_faqs (delete_faq (sk := sklearn_unit) "faq-1"
                 (world_of [faq_password; faq_password_again])).2 =
  [faq_password_again] /\
  (delete_faq (sk := sklearn_unit) "faq-1"
     (world_of [faq_password; faq_password_again])).1 =
  inr {| message := "FAQ deleted successfully" |}.
Proof.
  destruct (delete_faq_removes (sk := sklearn_unit) "faq-1"
              (world_of [faq_password; faq_password_again]) 0)
    as (Hstored & _ & _ & _ & Hreturned).
  - vm_compute. reflexivity.
  - split.
    + rewrite Hstored. vm_compute. reflexivity.
    + rewrite Hreturned. vm_compute. reflexivity.
Defined.

Lemma get_faq_found_witness :
  FAQItem.id faq_password_again = "faq-4" /\
  faq_password_again ∈ stored_faqs (world_of [faq_password; faq_password_again]).
Proof.
  destruct (get_faq_found (sk := sklearn_unit) "faq-4"
              (world_of [faq_password; faq_password_again])
              {| faq := faq_password_again |}) as (Hid & Hin & _).
  - vm_compute. reflexivity.
  - split; [exact Hid|exact Hin].
Defined.

Lemma update_then_get_faq_witness :
  (get_faq (sk := sklearn_unit) "faq-1"
     (update_faq 1700009999%Z "faq-1" password_update (world_of [faq_password])).2).1 =
  inr {| faq := {| FAQItem.id := "faq-1";
                   FAQItem.question := "How can I change my password?";
                   FAQItem.answer := "Open Settings and choose 'Change password'.";
                   FAQItem.created_at := 1700000000%Z;
                   FAQItem.updated_at := 1700009999%Z;
                   FAQItem.tags := ["account"] |} |}.
Proof.
  apply (update_then_get_faq (sk := sklearn_unit) 1700009999%Z "faq-1" password_update
           (world_of [faq_password])).
  vm_compute. reflexivity.
Defined.

Lemma create_then_get_faq_witness :
  (get_faq (sk := sklearn_unit) "faq-7"
     (create_faq "faq-7" 1700003000%Z 1700003001%Z password_create
        (world_of [faq_password])).2).1 =
  inr {| faq := {| FAQItem.id := "faq-7";
                   FAQItem.question := "How do I reset my password?";
                   FAQItem.answer := "Click 'Forgot password' on the login page.";
                   FAQItem.created_at := 1700003000%Z;
                   FAQItem.updated_at := 1700003001%Z;
                   FAQItem.tags := [] |} |}.
Proof.
  apply (create_then_get_faq (sk := sklearn_unit) "faq-7" 1700003000%Z 1700003001%Z
           password_create (world_of [faq_password])).
  - assert (Hids : ids (stored_faqs (world_of [faq_password])) = ["faq-1"])
      by (vm_compute; reflexivity).
    rewrite Hids. intros Hin. apply list_elem_of_singleton in Hin. discriminate.
  - vm_compute. reflexivity.
Defined.

Lemma delete_then_get_faq_witness :
  (get_faq (sk := sklearn_unit) "faq-1"
     (delete_faq "faq-1" (world_of [faq_password; faq_password_again])).2).1 =
  inl (HTTPException 404 "FAQ not found").
Proof.
  apply (delete_then_get_faq (sk := sklearn_unit) "faq-1"
           (world_of [faq_password; faq_password_again])
           {| message := "FAQ deleted successfully" |}).
  - assert (Hids : ids (stored_faqs (world_of [faq_password; faq_password_again]))
                   = ["faq-1"; "faq-4"]) by (vm_compute; reflexivity).
    rewrite Hids. apply (bool_decide_unpack _). vm_compute. exact I.
  - vm_compute. reflexivity.
Defined.

Lemma create_then_get_all_faqs_witness :
  (get_all_faqs (sk := sklearn_unit)
     (create_faq "faq-7" 1700003000%Z 1700003001%Z password_create
        (world_of [faq_password])).2).1 =
  inr {| FAQListResponse.faqs :=
           visible_faqs (world_of [faq_password]) ++
           [ {| FAQItem.id := "faq-7";
                FAQItem.question := "How do I reset my password?";
                FAQItem.answer := "Click 'Forgot password' on the login page.";
                FAQItem.created_at := 1700003000%Z;
                FAQItem.updated_at := 1700003001%Z;
                FAQItem.tags := [] |} ] |}.
Proof.
  apply (create_then_get_all_faqs (sk := sklearn_unit) "faq-7" 1700003000%Z 1700003001%Z
           password_create (world_of [faq_password])
           {| faq := {| FAQItem.id := "faq-7";
                        FAQItem.question := "How do I reset my password?";
                        FAQItem.answer := "Click 'Forgot password' on the login page.";
                        FAQItem.created_at := 1700003000%Z;
                        FAQItem.updated_at := 1700003001%Z;
                        FAQItem.tags := [] |} |}).
  vm_compute. reflexivity.
Defined.

Lemma writes_keep_ids_distinct_witness :
  NoDup (ids (stored_faqs
                (update_faq (sk := sklearn_unit) 1700009999%Z "faq-4" password_update
                   (world_of [faq_password; faq_password_again])).2)) /\
  NoDup (ids (stored_faqs
                (delete_faq (sk := sklearn_unit) "faq-4"
                   (world_of [faq_password; faq_password_again])).2)).
Proof.
  destruct (writes_keep_ids_distinct (sk := sklearn_unit)
              (world_of [faq_password; faq_password_again]) "faq-7" "faq-4"
              1700003000%Z 1700003001%Z 1700009999%Z password_create password_update)
    as (_ & Hupdate & Hdelete).
  - assert (Hids : ids (stored_faqs (world_of [faq_password; faq_password_again]))
                   = ["faq-1"; "faq-4"]) by (vm_compute; reflexivity).
    rewrite Hids. apply (bool_decide_unpack _). vm_compute. exact I.
  - split; [exact Hupdate|exact Hdelete].
Defined.

Lemma deleted_entry_never_answers_witness :
  Some "faq-4" <> Some "faq-1".
Proof.
  apply (deleted_entry_never_answers (sk := sklearn_unit) None "faq-1"
           (world_of [faq_password; faq_password_again])
           {| message := "FAQ deleted successfully" |}
           {| QueryRequest.question := "How do I reset my password?";
              QueryRequest.confidence_threshold := 0.5 |}
           {| QueryResponse.answer := Some "Click 'Forgot password' on the login page.";
              QueryResponse.confidence := 0.71713716560063623;
              QueryResponse.source_faq_id := Some "faq-4";
              QueryResponse.has_answer := true |}).
  - assert (Hids : ids (stored_faqs (world_of [faq_password; faq_password_again]))
                   = ["faq-1"; "faq-4"]) by (vm_compute; reflexivity).
    rewrite Hids. apply (bool_decide_unpack _). vm_compute. exact I.
  - vm_compute. reflexivity.
  - vm_compute. reflexivity.
Defined.

Lemma fallback_messages_hold_entries_witness :
  exists system_message,
    fallback_messages [faq_password] "What's the weather today?" =
    [system_message; {| role := "user"; content := "What's the weather today?" |}] /\
    role system_message = "system" /\
    contains ("Question: " +:+ FAQItem.question faq_password +:+ newline
              +:+ "Answer: " +:+ FAQItem.answer faq_password)
             (content system_message) = true.
Proof.
  apply (fallback_messages_hold_entries [faq_password] "What's the weather today?"
           faq_password).
  apply list_elem_of_here.
Defined.

(** ** The threshold *)

Section ThresholdFacts.
Context {sk : Tfidf}.

(** X24. The score that [search] returns does not depend on the
    threshold, and lowering the threshold never loses a match: an entry
    returned at one threshold is returned, with the same score, at every
    threshold below it. *)
Theorem search_threshold_monotone (self : VectorSearch) (query : string)
    (threshold lower_threshold : float) (e : FAQItem.t) (s : float) :
  search self query threshold = inr (Some e, s) ->
  (lower_threshold <=? threshold)%float = true ->
  search self query lower_threshold = inr (Some e, s) /\
  forall other r s', search self query other = inr (r, s') -> s' = s.
Proof.
  unfold search.
  destruct (negb (initialized self) || bool_decide (faqs self = [])); [done|].
  destruct (similarities self query) as [x|sims]; simpl; [done|].
  destruct (argmax sims) as [x|k]; simpl; [done|].
  destruct (getitem sims k) as [x|s0]; simpl; [done|].
  destruct (geb s0 threshold) eqn:Hge; [|done].
  destruct (getitem (faqs self) k) as [x|e0]; simpl; [done|].
  intros [= <- <-] Hlower. split.
  - unfold geb in *. by rewrite (float_leb_trans _ _ _ Hlower Hge).
  - intros other r s'. destruct (geb s0 other); by intros [= _ <-].
Qed.

End ThresholdFacts.

Lemma search_threshold_monotone_witness :
  search (sk := sklearn_unit) (rebuilt [faq_password] (model_of [faq_password]))
         "How do I reset my password?" 0.25 =
  inr (Some faq_password, 0.71713716560063623%float).
Proof.
  apply (search_threshold_monotone (sk := sklearn_unit)
           (rebuilt [faq_password] (model_of [faq_password]))
           "How do I reset my password?" 0.5 0.25 faq_password 0.71713716560063623).
  - vm_compute. reflexivity.
  - reflexivity.
Defined.
